(** * FLUX.2 [klein] demo: the generation proxy and the session controller

    A shallow embedding of
      - [src/pages/api/generate.ts]       (the proxy route, [POST]),
      - [src/test/api/generate.test.ts]   (the copy of the route's logic
                                           that the tests exercise), and
      - [components/ImageGenerator.tsx]   (the React controller),
    followed by the properties of the design document that concern them.

    JavaScript values that the code receives through [JSON.parse] are
    modelled by the inductive type [json]; [undefined] is [None] of
    [option json].  A number is given by the literal it is written as
    and stands for the double that [JSON.parse] reads from it (the
    nearest one, [Infinity] beyond the range); it is printed as that
    double is.  Text is held in UTF-8.  Exceptions are explicit
    ([completion]); the network and the clock are inputs. *)

From Stdlib Require Import ZArith NArith List String Ascii Bool Lia DecimalString.
Import ListNotations.
Local Open Scope Z_scope.
Local Open Scope string_scope.
Set Warnings "-register-all".

(* ================================================================== *)
(** ** JavaScript values                                                *)
(* ================================================================== *)

Module Js.

(** A value produced by [JSON.parse].  The fields of an object are its
    own properties, each key once, in the order JavaScript enumerates
    them.  [JNum n] is the number written as the integer [n]; [JDec m e]
    is the number written as [m] times ten to the [e], as [1.5] is
    [JDec 15 (-1)] and [2e-7] is [JDec 2 (-7)]. *)
Inductive json : Type :=
| JNull
| JBool (b : bool)
| JNum (n : Z)
| JStr (s : string)
| JArr (items : list json)
| JObj (fields : list (string * json))
| JDec (m e : Z).

(** A JavaScript value as the handlers see it: [None] is [undefined]. *)
Definition js : Type := option json.

(** What a [throw] carries.  [Err m] is [new Error(m)] (or a rejection by
    an [Error] with message [m]); [EngineErr] is a [TypeError],
    [SyntaxError] or [RangeError] raised by the platform, whose message
    text is platform specific; [Rejected] is a rejection by a value that
    is not an [Error] (an [Event]). *)
Inductive thrown : Type :=
| Err (message : string)
| EngineErr
| Rejected.

Inductive completion (A : Type) : Type :=
| Normal (a : A)
| Throw (e : thrown).
Arguments Normal {A} a.
Arguments Throw {A} e.

Definition bind {A B} (c : completion A) (k : A -> completion B) : completion B :=
  match c with
  | Normal a => k a
  | Throw e => Throw e
  end.

Notation "x <- c ;; k" := (bind c (fun x => k))
  (at level 61, c at next level, right associativity).

(** The decimal digits of an integer. *)
Definition decimal (n : Z) : string := NilZero.string_of_int (Z.to_int n).

(** A double that is not negative: zero, the value [mantissa * 2^exponent]
    in the one form a double has (a mantissa of 53 bits, or of fewer at
    the least exponent), or infinity. *)
Inductive double : Type :=
| Zero
| Finite (mantissa exponent : Z)
| Infinity.

(** The quotient [a / b] rounded to the nearest integer, ties to even. *)
Definition nearest (a b : Z) : Z :=
  let q := a / b in
  let r := a mod b in
  if (b <? 2 * r)%Z || ((b =? 2 * r)%Z && Z.odd q) then q + 1 else q.

(** [a * 10^e] as a fraction. *)
Definition scaled (a e : Z) : Z * Z :=
  if (0 <=? e)%Z then (a * 10 ^ e, 1) else (a, 10 ^ (- e)).

(** The double nearest to [m * 10^e], for [m] positive: what
    [JSON.parse] reads the literal as. *)
Definition to_double (m e : Z) : double :=
  let (num, den) := scaled m e in
  let guess := Z.log2 num - Z.log2 den in
  let top := if (0 <=? guess)%Z
             then if (den * 2 ^ guess <=? num)%Z then guess else guess - 1
             else if (den <=? num * 2 ^ (- guess))%Z then guess else guess - 1 in
  let exponent := Z.max (top - 52) (-1074) in
  let mantissa := if (0 <=? exponent)%Z
                  then nearest num (den * 2 ^ exponent)
                  else nearest (num * 2 ^ (- exponent)) den in
  let (mantissa, exponent) :=
    if (mantissa =? 2 ^ 53)%Z then (2 ^ 52, exponent + 1) else (mantissa, exponent) in
  if (mantissa =? 0)%Z then Zero
  else if (971 <? exponent)%Z then Infinity
  else Finite mantissa exponent.

Definition same (a b : double) : bool :=
  match a, b with
  | Zero, Zero | Infinity, Infinity => true
  | Finite m e, Finite m' e' => (m =? m')%Z && (e =? e')%Z
  | _, _ => false
  end.

Definition digits (a : Z) : Z := Z.of_nat (String.length (decimal a)).

(** The value [mantissa * 2^exponent] as a fraction. *)
Definition exact (mantissa exponent : Z) : Z * Z :=
  if (0 <=? exponent)%Z then (mantissa * 2 ^ exponent, 1)
  else (mantissa, 2 ^ (- exponent)).

(** The number of digits before the decimal point of [num / den]: the
    [n] with [10^(n-1) <= num/den < 10^n]. *)
Definition point (num den : Z) : Z :=
  let guess := digits num - digits den in
  let reaches := if (0 <=? guess)%Z then (den * 10 ^ guess <=? num)%Z
                 else (den <=? num * 10 ^ (- guess))%Z in
  if reaches then guess + 1 else guess.

(** The decimal [s * 10^(n-k)] of [k] digits, tried from [k] on, that
    reads back as the double and has the fewest digits; of two with as
    many, the nearer one, then the even one.  The result is [(s, n-k)]. *)
Fixpoint shortest (fuel : nat) (k : Z) (x : double) (num den n : Z) : Z * Z :=
  match fuel with
  | O => (num, 0)
  | S fuel' =>
      let (a, b) := if (n <=? k)%Z then (num * 10 ^ (k - n), den)
                    else (num, den * 10 ^ (n - k)) in
      let below := a / b in
      let above := below + 1 in
      let fits s := same (to_double s (n - k)) x in
      let nearer := if (2 * (a mod b) <? b)%Z then below
                    else if (b <? 2 * (a mod b))%Z then above
                    else if Z.even below then below else above in
      if fits below && fits above then (nearer, n - k)
      else if fits below then (below, n - k)
      else if fits above then (above, n - k)
      else shortest fuel' (k + 1) x num den n
  end.

Fixpoint strip_zeros (fuel : nat) (s e : Z) : Z * Z :=
  match fuel with
  | O => (s, e)
  | S fuel' => if (s mod 10 =? 0)%Z then strip_zeros fuel' (s / 10) (e + 1) else (s, e)
  end.

Fixpoint zeros (n : nat) : string :=
  match n with
  | O => ""
  | S n' => String "0"%char (zeros n')
  end.

(** [Number::toString] of a positive finite double. *)
Definition finite_to_string (mantissa exponent : Z) : string :=
  let (num, den) := exact mantissa exponent in
  let (s, e) := shortest 17 1 (Finite mantissa exponent) num den (point num den) in
  let (s, e) := strip_zeros 400 s e in
  let text := decimal s in
  let k := digits s in
  let n := k + e in
  if (k <=? n)%Z && (n <=? 21)%Z then text ++ zeros (Z.to_nat (n - k))
  else if (0 <? n)%Z && (n <=? 21)%Z then
    String.substring 0 (Z.to_nat n) text ++ "."
      ++ String.substring (Z.to_nat n) (Z.to_nat (k - n)) text
  else if (-6 <? n)%Z && (n <=? 0)%Z then "0." ++ zeros (Z.to_nat (- n)) ++ text
  else
    let power := (if (0 <=? n - 1)%Z then "e+" else "e-") ++ decimal (Z.abs (n - 1)) in
    if (k =? 1)%Z then text ++ power
    else String.substring 0 1 text ++ "."
           ++ String.substring 1 (Z.to_nat (k - 1)) text ++ power.

(** [String(x)] for the number read from the literal [m * 10^e]. *)
Definition literal_to_string (m e : Z) : string :=
  if (m =? 0)%Z then "0"
  else
    match to_double (Z.abs m) e with
    | Zero => "0"
    | Finite mantissa exponent =>
        (if (m <? 0)%Z then "-" else "") ++ finite_to_string mantissa exponent
    | Infinity => (if (m <? 0)%Z then "-" else "") ++ "Infinity"
    end.

(** [String(n)] for an integer [n], as a status code is. *)
Definition number_to_string (n : Z) : string := literal_to_string n 0.

(** Whether the literal [m * 10^e] is read as a finite number. *)
Definition finite (m e : Z) : bool :=
  match to_double (Z.abs m) e with
  | Infinity => false
  | _ => true
  end.

(** [ToBoolean]; a number is falsy when it is zero, which a literal
    that is not zero is when it is too small for a double. *)
Definition truthy_json (v : json) : bool :=
  match v with
  | JNull => false
  | JBool b => b
  | JNum n => negb (n =? 0)%Z
  | JStr s => negb (s =? "")
  | JArr _ => true
  | JObj _ => true
  | JDec m e =>
      match to_double (Z.abs m) e with
      | Zero => false
      | _ => true
      end
  end.

Definition truthy (v : js) : bool :=
  match v with
  | None => false
  | Some j => truthy_json j
  end.

(** Own property of a parsed object. *)
Fixpoint assoc (k : string) (fields : list (string * json)) : js :=
  match fields with
  | [] => None
  | (k', v) :: rest => if k' =? k then Some v else assoc k rest
  end.

(** [v.k] for the keys the source reads ([prompt], [detail], [status], ...),
    none of which is a built-in property of a string, number, boolean or
    array: reading them off a primitive gives [undefined], off [null] it
    throws. *)
Definition get (k : string) (v : json) : completion js :=
  match v with
  | JNull => Throw EngineErr
  | JObj fields => Normal (assoc k fields)
  | _ => Normal None
  end.

(** [v.k] where [v] is known not to be [null]. *)
Definition field (k : string) (v : json) : js :=
  match v with
  | JObj fields => assoc k fields
  | _ => None
  end.

(** [a || b || ... || last], the last operand being defined. *)
Fixpoint first_truthy (candidates : list js) (last : json) : json :=
  match candidates with
  | [] => last
  | Some v :: rest => if truthy_json v then v else first_truthy rest last
  | None :: rest => first_truthy rest last
  end.

(** [a || b || ... || last] where the last operand, evaluated when the
    others are falsy, can throw. *)
Fixpoint first_truthy_or (candidates : list js) (last : completion json)
  : completion json :=
  match candidates with
  | [] => last
  | Some v :: rest => if truthy_json v then Normal v else first_truthy_or rest last
  | None :: rest => first_truthy_or rest last
  end.

(** The value of an expression that is known to be defined (it has just
    been tested truthy). *)
Definition defined (v : js) : json :=
  match v with
  | Some j => j
  | None => JNull
  end.

(** [v?.k] *)
Definition get_opt (k : string) (v : js) : js :=
  match v with
  | None | Some JNull => None
  | Some (JObj fields) => assoc k fields
  | Some _ => None
  end.

(** [v === "s"] *)
Definition is_string (s : string) (v : js) : bool :=
  match v with
  | Some (JStr t) => t =? s
  | _ => false
  end.

(** The results of evaluations made one after the other, up to the first
    that throws. *)
Fixpoint in_turn {A} (l : list (completion A)) : completion (list A) :=
  match l with
  | [] => Normal []
  | Throw e :: _ => Throw e
  | Normal a :: rest =>
      match in_turn rest with
      | Normal others => Normal (a :: others)
      | Throw e => Throw e
      end
  end.

(** [String(v)] ([ToString]).  An object is converted by the first
    callable of its [toString] and [valueOf]: one that has a key
    [toString] of its own, which holds no function, is left with
    [Object.prototype.valueOf], which returns no primitive, and the
    conversion throws a [TypeError]; any other object gives
    [[object Object]].  The elements of an array are converted in turn
    and joined by commas, [null] giving the empty string. *)
Fixpoint to_string_json (v : json) : completion string :=
  match v with
  | JNull => Normal "null"
  | JBool true => Normal "true"
  | JBool false => Normal "false"
  | JNum n => Normal (number_to_string n)
  | JStr s => Normal s
  | JArr items =>
      pieces <- in_turn (map (fun x => match x with
                                       | JNull => Normal ""
                                       | _ => to_string_json x
                                       end) items) ;;
      Normal (String.concat "," pieces)
  | JObj fields =>
      match assoc "toString" fields with
      | Some _ => Throw EngineErr
      | None => Normal "[object Object]"
      end
  | JDec m e => Normal (literal_to_string m e)
  end.

Definition to_string (v : js) : completion string :=
  match v with
  | None => Normal "undefined"
  | Some j => to_string_json j
  end.

Definition hex_digit (n : nat) : string :=
  String.substring n 1 "0123456789abcdef".

(** One character inside a JSON string literal. *)
Definition escape_char (c : ascii) : string :=
  let n := nat_of_ascii c in
  if Nat.eqb n 34 then "\" ++ String c ""
  else if Nat.eqb n 92 then "\\"
  else if Nat.eqb n 8 then "\b"
  else if Nat.eqb n 9 then "\t"
  else if Nat.eqb n 10 then "\n"
  else if Nat.eqb n 12 then "\f"
  else if Nat.eqb n 13 then "\r"
  else if Nat.ltb n 32 then "\u00" ++ hex_digit (Nat.div n 16) ++ hex_digit (Nat.modulo n 16)
  else String c "".

Fixpoint escape (s : string) : string :=
  match s with
  | EmptyString => ""
  | String c rest => escape_char c ++ escape rest
  end.

Definition quote (s : string) : string :=
  String (ascii_of_nat 34) (escape s ++ String (ascii_of_nat 34) "").

(** [JSON.stringify(v)] of a parsed value (no indentation); a number
    that is not finite is written [null]. *)
Fixpoint stringify (v : json) : string :=
  match v with
  | JNull => "null"
  | JBool true => "true"
  | JBool false => "false"
  | JNum n => if finite n 0 then number_to_string n else "null"
  | JDec m e => if finite m e then literal_to_string m e else "null"
  | JStr s => quote s
  | JArr items =>
      "[" ++ (fix elems (l : list json) : string :=
                match l with
                | [] => ""
                | [x] => stringify x
                | x :: rest => stringify x ++ "," ++ elems rest
                end) items ++ "]"
  | JObj fields =>
      "{" ++ (fix members (l : list (string * json)) : string :=
                match l with
                | [] => ""
                | [(k, x)] => quote k ++ ":" ++ stringify x
                | (k, x) :: rest => quote k ++ ":" ++ stringify x ++ "," ++ members rest
                end) fields ++ "}"
  end.

Definition base64_alphabet : string :=
  "ABCDEFGHIJKLMNOPQRSTUVWXYZabcdefghijklmnopqrstuvwxyz0123456789+/".

Definition base64_digit (n : N) : ascii :=
  match String.get (N.to_nat n) base64_alphabet with
  | Some c => c
  | None => "="%char
  end.

Fixpoint base64 (codes : list N) : string :=
  (match codes with
   | [] => ""
   | [a] =>
       String (base64_digit (a / 4)) (String (base64_digit ((a mod 4) * 16)) "==")
   | [a; b] =>
       String (base64_digit (a / 4))
         (String (base64_digit ((a mod 4) * 16 + b / 16))
            (String (base64_digit ((b mod 16) * 4)) "="))
   | a :: b :: c :: rest =>
       String (base64_digit (a / 4))
         (String (base64_digit ((a mod 4) * 16 + b / 16))
            (String (base64_digit ((b mod 16) * 4 + c / 64))
               (String (base64_digit (c mod 64)) (base64 rest))))
   end)%N.

(** [btoa(binary)] for a binary string, held one byte per character. *)
Definition btoa (binary : string) : string :=
  base64 (map Byte.to_N (list_byte_of_string binary)).


(** A byte that continues a UTF-8 sequence. *)
Definition continuation (c : ascii) : bool :=
  let n := N_of_ascii c in (128 <=? n)%N && (n <? 192)%N.

Definition low6 (c : ascii) : N := (N_of_ascii c - 128)%N.

(** The code point that two, three and four bytes encode. *)
Definition code2 (c1 c2 : ascii) : N := ((N_of_ascii c1 - 192) * 64 + low6 c2)%N.

Definition code3 (c1 c2 c3 : ascii) : N :=
  (((N_of_ascii c1 - 224) * 64 + low6 c2) * 64 + low6 c3)%N.

Definition code4 (c1 c2 c3 c4 : ascii) : N :=
  ((((N_of_ascii c1 - 240) * 64 + low6 c2) * 64 + low6 c3) * 64 + low6 c4)%N.

(** Well-formed sequences of two, three and four bytes: the lead byte and
    the continuations, the shortest encoding, no surrogate, and nothing
    beyond the last code point. *)
Definition well_formed2 (c1 c2 : ascii) : bool :=
  continuation c2 && (194 <=? N_of_ascii c1)%N && (N_of_ascii c1 <? 224)%N.

Definition well_formed3 (c1 c2 c3 : ascii) : bool :=
  continuation c2 && continuation c3
  && (224 <=? N_of_ascii c1)%N && (N_of_ascii c1 <? 240)%N
  && (2048 <=? code3 c1 c2 c3)%N
  && negb ((55296 <=? code3 c1 c2 c3)%N && (code3 c1 c2 c3 <=? 57343)%N).

Definition well_formed4 (c1 c2 c3 c4 : ascii) : bool :=
  continuation c2 && continuation c3 && continuation c4
  && (240 <=? N_of_ascii c1)%N && (N_of_ascii c1 <? 245)%N
  && (65536 <=? code4 c1 c2 c3 c4)%N && (code4 c1 c2 c3 c4 <=? 1114111)%N.

(** The characters of a string, each with its spelling: a well-formed
    UTF-8 sequence is the character it encodes, and a byte outside any
    such sequence is the character of its value. *)
Fixpoint chars (s : string) : list (N * string) :=
  match s with
  | EmptyString => []
  | String c1 r1 =>
      let lone := (N_of_ascii c1, String c1 "") in
      match r1 with
      | String c2 r2 =>
          if well_formed2 c1 c2 then
            (code2 c1 c2, String c1 (String c2 "")) :: chars r2
          else
            match r2 with
            | String c3 r3 =>
                if well_formed3 c1 c2 c3 then
                  (code3 c1 c2 c3, String c1 (String c2 (String c3 ""))) :: chars r3
                else
                  match r3 with
                  | String c4 r4 =>
                      if well_formed4 c1 c2 c3 c4 then
                        (code4 c1 c2 c3 c4,
                         String c1 (String c2 (String c3 (String c4 "")))) :: chars r4
                      else lone :: chars r1
                  | EmptyString => lone :: chars r1
                  end
            | EmptyString => lone :: chars r1
            end
      | EmptyString => lone :: chars r1
      end
  end.

(** The white space that [String.prototype.trim] strips: [WhiteSpace]
    (tab, vertical tab, form feed, space, no-break space, the byte order
    mark and the space separators of Unicode) and [LineTerminator] (line
    feed, carriage return, line and paragraph separator). *)
Definition is_space (code : N) : bool :=
  ((9 <=? code) && (code <=? 13) || (code =? 32) || (code =? 160)
   || (code =? 5760) || (8192 <=? code) && (code <=? 8202)
   || (code =? 8232) || (code =? 8233) || (code =? 8239) || (code =? 8287)
   || (code =? 12288) || (code =? 65279))%N.

Fixpoint trim_start (l : list (N * string)) : list (N * string) :=
  match l with
  | [] => []
  | c :: rest => if is_space (fst c) then trim_start rest else l
  end.

Definition trim_end (l : list (N * string)) : list (N * string) :=
  rev (trim_start (rev l)).

(** [s.trim()] *)
Definition trim (s : string) : string :=
  String.concat "" (map snd (trim_end (trim_start (chars s)))).

(** [s.startsWith(p)] *)
Definition starts_with (p s : string) : bool := String.prefix p s.

(** The double quote character, as a one-character string. *)
Definition dq : string := String (ascii_of_nat 34) "".

End Js.

Import Js.

(* ================================================================== *)
(** ** The proxy: [src/pages/api/generate.ts]                           *)
(* ================================================================== *)

Module Proxy.

Definition BFL_API_9B : string := "https://api.bfl.ai/v1/flux-2-klein-9b".
Definition BFL_API_4B : string := "https://api.bfl.ai/v1/flux-2-klein-4b".

(** What the handler can observe of a resolved [fetch]: the [ok] flag, the
    status code, and what [json()], [text()] and [arrayBuffer()] settle
    with when they read the body ([None] when the promise rejects).  The
    body of a [Response] of the platform can be read once: [text()]
    called after [json()] rejects.  [reusable] is set for the doubles of
    the tests, which answer every call on its own. *)
Record response : Type := {
  ok : bool;
  status : Z;
  json_body : option json;
  text_body : option string;
  array_buffer : option (list Byte.byte);
  reusable : bool
}.

(** How one [fetch] settles.  The network is given as the list of these
    that successive calls meet, in order. *)
Inductive fetched : Type :=
| NetworkError
| Resolved (res : response).

(** The calls the handler issues.  [Submit] records [requestBody]; the
    bytes on the wire are its [stringify]. *)
Inductive call : Type :=
| FetchImage (url : json)
| Submit (url : string) (x_key : json) (requestBody : json)
| Poll (url : json) (x_key : json).

(** How the handler ends: with [new Response(JSON.stringify(body),
    {status})], with an exception it does not catch, or not yet (it awaits
    a call the network has not answered).  The half-second pause before
    each poll is not modelled.  The client reads [wire body]. *)
Inductive outcome : Type :=
| Replied (status : Z) (body : json)
| Crashed (e : thrown)
| Awaiting.

Definition after (c : call) (r : outcome * list call) : outcome * list call :=
  (fst r, c :: snd r).

(** [urlToBase64], once [fetch(url)] has resolved. *)
Definition urlToBase64 (res : response) : completion string :=
  match array_buffer res with
  | None => Throw EngineErr
  | Some bytes => Normal (btoa (string_of_list_byte bytes))
  end.

(** The message of a non-success response (lines 53-59 and 93-99); [generic]
    is the initial value of [errorMessage].  The [catch] block calls
    [text()] on a body that [json()] has read. *)
Definition error_message (generic : string) (res : response) : completion json :=
  let caught :=
    if reusable res then
      match text_body res with
      | None => Throw EngineErr
      | Some text => Normal (JStr (if text =? "" then generic else text))
      end
    else Throw EngineErr in
  match json_body res with
  | None => caught
  | Some errorData =>
      match get "detail" errorData with
      | Throw _ => caught
      | Normal detail =>
          Normal (first_truthy
                    [detail; field "message" errorData; field "error" errorData]
                    (JStr (stringify errorData)))
      end
  end.

(** A status with which a response has no body. *)
Definition null_body_status (st : Z) : bool :=
  (st =? 204)%Z || (st =? 205)%Z || (st =? 304)%Z.

(** [new Response(JSON.stringify(body), {status})]: the constructor throws
    a [RangeError] for a status outside 200 to 599, and a [TypeError] for
    a body given with a status that has none. *)
Definition respond (st : Z) (body : json) : outcome :=
  if (st <? 200)%Z || (599 <? st)%Z || null_body_status st then Crashed EngineErr
  else Replied st body.

Definition error_reply (label : string) (res : response) : outcome :=
  match error_message (label ++ " (" ++ number_to_string (status res) ++ ")") res with
  | Throw e => Crashed e
  | Normal errorMessage => respond (status res) (JObj [("error", errorMessage)])
  end.

(** What one poll response makes of the loop: leave it with an outcome, or
    go round again. *)
Inductive verdict : Type :=
| Leave (o : outcome)
| Continue.

(** The message of a poll that has failed (line 120); the template
    literal is evaluated when the three fields are falsy. *)
Definition failure_message (result : json) (st : js) : completion json :=
  first_truthy_or
    [field "error" result; field "message" result; field "detail" result]
    (text <- to_string st ;; Normal (JStr ("Generation failed: " ++ text))).

(** The body of the [while (true)] loop after [fetch(pollUrl)] resolved. *)
Definition poll_step (pollRes : response) : verdict :=
  if negb (ok pollRes) then Leave (error_reply "Poll error" pollRes)
  else
    match json_body pollRes with
    | None => Leave (Crashed EngineErr)
    | Some result =>
        match get "status" result with
        | Throw e => Leave (Crashed e)
        | Normal st =>
            let sample := get_opt "sample" (field "result" result) in
            if is_string "Ready" st && truthy sample then
              Leave (Replied 200 (JObj [("url", defined sample)]))
            else if is_string "Pending" st then Continue
            else
              match failure_message result st with
              | Throw e => Leave (Crashed e)
              | Normal errorMessage =>
                  Leave (Replied 500 (JObj [("error", errorMessage)]))
              end
        end
    end.

(** The polling loop, run against the responses the network gives in
    order.  When they are used up the handler is still awaiting. *)
Fixpoint poll_loop (pollUrl apiKey : json) (net : list fetched) : outcome * list call :=
  after (Poll pollUrl apiKey)
    match net with
    | [] => (Awaiting, [])
    | NetworkError :: _ => (Crashed EngineErr, [])
    | Resolved pollRes :: net' =>
        match poll_step pollRes with
        | Leave o => (o, [])
        | Continue => poll_loop pollUrl apiKey net'
        end
    end.

(** From the submission on (lines 43-125). *)
Definition submit (apiUrl : string) (apiKey requestBody : json) (net : list fetched)
  : outcome * list call :=
  after (Submit apiUrl apiKey requestBody)
    match net with
    | [] => (Awaiting, [])
    | NetworkError :: _ => (Crashed EngineErr, [])
    | Resolved submitRes :: net' =>
        if negb (ok submitRes) then (error_reply "BFL API error" submitRes, [])
        else
          match json_body submitRes with
          | None => (Crashed EngineErr, [])
          | Some submitData =>
              match get "sample" submitData with
              | Throw e => (Crashed e, [])
              | Normal sample =>
                  if truthy sample then
                    (Replied 200 (JObj [("url", defined sample)]), [])
                  else
                    match field "polling_url" submitData with
                    | Some pollUrl =>
                        if truthy_json pollUrl then poll_loop pollUrl apiKey net'
                        else (Replied 500 (JObj [("error", JStr "No polling URL in response")]), [])
                    | None =>
                        (Replied 500 (JObj [("error", JStr "No polling URL in response")]), [])
                    end
              end
          end
    end.

(** The route handler.  [request] is what [request.json()] settles with. *)
Definition POST (request : option json) (net : list fetched) : outcome * list call :=
  match request with
  | None => (Crashed EngineErr, [])
  | Some JNull => (Crashed EngineErr, [])
  | Some req =>
      let prompt := field "prompt" req in
      let apiKey := field "apiKey" req in
      let image := field "image" req in
      let imageUrl := field "imageUrl" req in
      let variant := field "variant" req in
      let apiUrl := if is_string "4b" variant then BFL_API_4B else BFL_API_9B in
      if negb (truthy prompt) || negb (truthy apiKey) then
        (Replied 400 (JObj [("error", JStr "Missing prompt or API key")]), [])
      else
        let requestBody :=
          [("prompt", defined prompt); ("width", JNum 768); ("height", JNum 768);
           ("prompt_upsampling", JBool false)] in
        if truthy image then
          submit apiUrl (defined apiKey)
            (JObj (requestBody ++ [("input_image", defined image)])) net
        else if truthy imageUrl then
          after (FetchImage (defined imageUrl))
            match net with
            | [] => (Awaiting, [])
            | NetworkError :: _ => (Crashed EngineErr, [])
            | Resolved res :: net' =>
                match urlToBase64 res with
                | Throw e => (Crashed e, [])
                | Normal b64 =>
                    submit apiUrl (defined apiKey)
                      (JObj (requestBody ++ [("input_image", JStr b64)])) net'
                end
            end
        else submit apiUrl (defined apiKey) (JObj requestBody) net
  end.

End Proxy.

(* ================================================================== *)
(** ** The handler as the tests run it: [src/test/api/generate.test.ts] *)
(* ================================================================== *)

Module TestDouble.

Import Proxy.

(** The test file carries its own copy of the route's logic,
    [handleGenerate] (lines 40-131), which returns [{url, status}] or
    [{error, status}] where the route constructs a [Response]; both are
    [Replied status body] here, but the copy returns whatever status it
    has where the constructor of the route refuses some.  The copy
    differs from the route in the loop as well: it polls at most
    [maxIterations] times and then reports a timeout. *)
Definition maxIterations : nat := 10.

(** Lines 70-78 and 104-112: [{error: errorMessage, status}], where the
    route constructs a [Response]. *)
Definition error_reply (label : string) (res : response) : outcome :=
  match error_message (label ++ " (" ++ number_to_string (status res) ++ ")") res with
  | Throw e => Crashed e
  | Normal errorMessage => Replied (status res) (JObj [("error", errorMessage)])
  end.

(** The body of the loop after [fetch(pollUrl)] resolved (lines 104-128). *)
Definition poll_step (pollRes : response) : verdict :=
  if negb (Proxy.ok pollRes) then Leave (error_reply "Poll error" pollRes)
  else
    match json_body pollRes with
    | None => Leave (Crashed EngineErr)
    | Some result =>
        match get "status" result with
        | Throw e => Leave (Crashed e)
        | Normal st =>
            let sample := get_opt "sample" (field "result" result) in
            if is_string "Ready" st && truthy sample then
              Leave (Replied 200 (JObj [("url", defined sample)]))
            else if is_string "Pending" st then Continue
            else
              match failure_message result st with
              | Throw e => Leave (Crashed e)
              | Normal errorMessage =>
                  Leave (Replied 500 (JObj [("error", errorMessage)]))
              end
        end
    end.

(** The loop [while (iterations < maxIterations)], with the number of
    iterations left. *)
Fixpoint poll_loop (left : nat) (pollUrl apiKey : json) (net : list fetched)
  : outcome * list call :=
  match left with
  | O => (Replied 500 (JObj [("error", JStr "Polling timeout")]), [])
  | S left' =>
      after (Poll pollUrl apiKey)
        match net with
        | [] => (Awaiting, [])
        | NetworkError :: _ => (Crashed EngineErr, [])
        | Resolved pollRes :: net' =>
            match poll_step pollRes with
            | Leave o => (o, [])
            | Continue => poll_loop left' pollUrl apiKey net'
            end
        end
  end.

(** Lines 61-130. *)
Definition submit (apiUrl : string) (apiKey requestBody : json) (net : list fetched)
  : outcome * list call :=
  after (Submit apiUrl apiKey requestBody)
    match net with
    | [] => (Awaiting, [])
    | NetworkError :: _ => (Crashed EngineErr, [])
    | Resolved submitRes :: net' =>
        if negb (Proxy.ok submitRes) then (error_reply "BFL API error" submitRes, [])
        else
          match json_body submitRes with
          | None => (Crashed EngineErr, [])
          | Some submitData =>
              match get "sample" submitData with
              | Throw e => (Crashed e, [])
              | Normal sample =>
                  if truthy sample then
                    (Replied 200 (JObj [("url", defined sample)]), [])
                  else
                    match field "polling_url" submitData with
                    | Some pollUrl =>
                        if truthy_json pollUrl then
                          poll_loop maxIterations pollUrl apiKey net'
                        else (Replied 500 (JObj [("error", JStr "No polling URL in response")]), [])
                    | None =>
                        (Replied 500 (JObj [("error", JStr "No polling URL in response")]), [])
                    end
              end
          end
    end.

(** [handleGenerate(body)] of the test file. *)
Definition handleGenerate (body : json) (net : list fetched) : outcome * list call :=
  match body with
  | JNull => (Crashed EngineErr, [])
  | _ =>
      let prompt := field "prompt" body in
      let apiKey := field "apiKey" body in
      let image := field "image" body in
      let imageUrl := field "imageUrl" body in
      let variant := field "variant" body in
      let apiUrl := if is_string "4b" variant then BFL_API_4B else BFL_API_9B in
      if negb (truthy prompt) || negb (truthy apiKey) then
        (Replied 400 (JObj [("error", JStr "Missing prompt or API key")]), [])
      else
        let requestBody :=
          [("prompt", defined prompt); ("width", JNum 768); ("height", JNum 768);
           ("prompt_upsampling", JBool false)] in
        if truthy image then
          submit apiUrl (defined apiKey)
            (JObj (requestBody ++ [("input_image", defined image)])) net
        else if truthy imageUrl then
          after (FetchImage (defined imageUrl))
            match net with
            | [] => (Awaiting, [])
            | NetworkError :: _ => (Crashed EngineErr, [])
            | Resolved res :: net' =>
                match urlToBase64 res with
                | Throw e => (Crashed e, [])
                | Normal b64 =>
                    submit apiUrl (defined apiKey)
                      (JObj (requestBody ++ [("input_image", JStr b64)])) net'
                end
            end
        else submit apiUrl (defined apiKey) (JObj requestBody) net
  end.

End TestDouble.

(* ================================================================== *)
(** ** The controller: [components/ImageGenerator.tsx]                  *)
(* ================================================================== *)

Module Controller.

(** The component is modelled as a state machine.  Each handler runs to
    its first [await] on the state of the latest render (the handlers are
    re-created whenever a state cell they read changes); what runs after
    an [await] is a separate transition, which sees the values the
    suspended handler closed over and the current contents of the refs.

    The component's [useState] cells and [useRef] cells.  Image URLs are
    JavaScript values ([JNull] is [null]): what [data.url] holds is stored
    as it comes. *)
Record state : Type := {
  apiKey : string;
  prompt : string;
  modelVariant : string;
  isGenerating : bool;
  editMode : bool;
  currentImageUrl : json;
  previousImageUrl : json;
  showCurrentImage : bool;
  genTime : string;
  isDragOver : bool;
  showLoading : bool;
  loadingComplete : bool;
  referenceImageBase64Ref : js;
  dragCounterRef : Z;
  timerIntervalRef : option positive
}.

Definition setApiKey (v : string) (s : state) : state :=
  {| apiKey := v;
     prompt := prompt s;
     modelVariant := modelVariant s;
     isGenerating := isGenerating s;
     editMode := editMode s;
     currentImageUrl := currentImageUrl s;
     previousImageUrl := previousImageUrl s;
     showCurrentImage := showCurrentImage s;
     genTime := genTime s;
     isDragOver := isDragOver s;
     showLoading := showLoading s;
     loadingComplete := loadingComplete s;
     referenceImageBase64Ref := referenceImageBase64Ref s;
     dragCounterRef := dragCounterRef s;
     timerIntervalRef := timerIntervalRef s |}.

Definition setPrompt (v : string) (s : state) : state :=
  {| apiKey := apiKey s;
     prompt := v;
     modelVariant := modelVariant s;
     isGenerating := isGenerating s;
     editMode := editMode s;
     currentImageUrl := currentImageUrl s;
     previousImageUrl := previousImageUrl s;
     showCurrentImage := showCurrentImage s;
     genTime := genTime s;
     isDragOver := isDragOver s;
     showLoading := showLoading s;
     loadingComplete := loadingComplete s;
     referenceImageBase64Ref := referenceImageBase64Ref s;
     dragCounterRef := dragCounterRef s;
     timerIntervalRef := timerIntervalRef s |}.

Definition setModelVariant (v : string) (s : state) : state :=
  {| apiKey := apiKey s;
     prompt := prompt s;
     modelVariant := v;
     isGenerating := isGenerating s;
     editMode := editMode s;
     currentImageUrl := currentImageUrl s;
     previousImageUrl := previousImageUrl s;
     showCurrentImage := showCurrentImage s;
     genTime := genTime s;
     isDragOver := isDragOver s;
     showLoading := showLoading s;
     loadingComplete := loadingComplete s;
     referenceImageBase64Ref := referenceImageBase64Ref s;
     dragCounterRef := dragCounterRef s;
     timerIntervalRef := timerIntervalRef s |}.

Definition setIsGenerating (v : bool) (s : state) : state :=
  {| apiKey := apiKey s;
     prompt := prompt s;
     modelVariant := modelVariant s;
     isGenerating := v;
     editMode := editMode s;
     currentImageUrl := currentImageUrl s;
     previousImageUrl := previousImageUrl s;
     showCurrentImage := showCurrentImage s;
     genTime := genTime s;
     isDragOver := isDragOver s;
     showLoading := showLoading s;
     loadingComplete := loadingComplete s;
     referenceImageBase64Ref := referenceImageBase64Ref s;
     dragCounterRef := dragCounterRef s;
     timerIntervalRef := timerIntervalRef s |}.

Definition setEditMode (v : bool) (s : state) : state :=
  {| apiKey := apiKey s;
     prompt := prompt s;
     modelVariant := modelVariant s;
     isGenerating := isGenerating s;
     editMode := v;
     currentImageUrl := currentImageUrl s;
     previousImageUrl := previousImageUrl s;
     showCurrentImage := showCurrentImage s;
     genTime := genTime s;
     isDragOver := isDragOver s;
     showLoading := showLoading s;
     loadingComplete := loadingComplete s;
     referenceImageBase64Ref := referenceImageBase64Ref s;
     dragCounterRef := dragCounterRef s;
     timerIntervalRef := timerIntervalRef s |}.

Definition setCurrentImageUrl (v : json) (s : state) : state :=
  {| apiKey := apiKey s;
     prompt := prompt s;
     modelVariant := modelVariant s;
     isGenerating := isGenerating s;
     editMode := editMode s;
     currentImageUrl := v;
     previousImageUrl := previousImageUrl s;
     showCurrentImage := showCurrentImage s;
     genTime := genTime s;
     isDragOver := isDragOver s;
     showLoading := showLoading s;
     loadingComplete := loadingComplete s;
     referenceImageBase64Ref := referenceImageBase64Ref s;
     dragCounterRef := dragCounterRef s;
     timerIntervalRef := timerIntervalRef s |}.

Definition setPreviousImageUrl (v : json) (s : state) : state :=
  {| apiKey := apiKey s;
     prompt := prompt s;
     modelVariant := modelVariant s;
     isGenerating := isGenerating s;
     editMode := editMode s;
     currentImageUrl := currentImageUrl s;
     previousImageUrl := v;
     showCurrentImage := showCurrentImage s;
     genTime := genTime s;
     isDragOver := isDragOver s;
     showLoading := showLoading s;
     loadingComplete := loadingComplete s;
     referenceImageBase64Ref := referenceImageBase64Ref s;
     dragCounterRef := dragCounterRef s;
     timerIntervalRef := timerIntervalRef s |}.

Definition setShowCurrentImage (v : bool) (s : state) : state :=
  {| apiKey := apiKey s;
     prompt := prompt s;
     modelVariant := modelVariant s;
     isGenerating := isGenerating s;
     editMode := editMode s;
     currentImageUrl := currentImageUrl s;
     previousImageUrl := previousImageUrl s;
     showCurrentImage := v;
     genTime := genTime s;
     isDragOver := isDragOver s;
     showLoading := showLoading s;
     loadingComplete := loadingComplete s;
     referenceImageBase64Ref := referenceImageBase64Ref s;
     dragCounterRef := dragCounterRef s;
     timerIntervalRef := timerIntervalRef s |}.

Definition setGenTime (v : string) (s : state) : state :=
  {| apiKey := apiKey s;
     prompt := prompt s;
     modelVariant := modelVariant s;
     isGenerating := isGenerating s;
     editMode := editMode s;
     currentImageUrl := currentImageUrl s;
     previousImageUrl := previousImageUrl s;
     showCurrentImage := showCurrentImage s;
     genTime := v;
     isDragOver := isDragOver s;
     showLoading := showLoading s;
     loadingComplete := loadingComplete s;
     referenceImageBase64Ref := referenceImageBase64Ref s;
     dragCounterRef := dragCounterRef s;
     timerIntervalRef := timerIntervalRef s |}.

Definition setIsDragOver (v : bool) (s : state) : state :=
  {| apiKey := apiKey s;
     prompt := prompt s;
     modelVariant := modelVariant s;
     isGenerating := isGenerating s;
     editMode := editMode s;
     currentImageUrl := currentImageUrl s;
     previousImageUrl := previousImageUrl s;
     showCurrentImage := showCurrentImage s;
     genTime := genTime s;
     isDragOver := v;
     showLoading := showLoading s;
     loadingComplete := loadingComplete s;
     referenceImageBase64Ref := referenceImageBase64Ref s;
     dragCounterRef := dragCounterRef s;
     timerIntervalRef := timerIntervalRef s |}.

Definition setShowLoading (v : bool) (s : state) : state :=
  {| apiKey := apiKey s;
     prompt := prompt s;
     modelVariant := modelVariant s;
     isGenerating := isGenerating s;
     editMode := editMode s;
     currentImageUrl := currentImageUrl s;
     previousImageUrl := previousImageUrl s;
     showCurrentImage := showCurrentImage s;
     genTime := genTime s;
     isDragOver := isDragOver s;
     showLoading := v;
     loadingComplete := loadingComplete s;
     referenceImageBase64Ref := referenceImageBase64Ref s;
     dragCounterRef := dragCounterRef s;
     timerIntervalRef := timerIntervalRef s |}.

Definition setLoadingComplete (v : bool) (s : state) : state :=
  {| apiKey := apiKey s;
     prompt := prompt s;
     modelVariant := modelVariant s;
     isGenerating := isGenerating s;
     editMode := editMode s;
     currentImageUrl := currentImageUrl s;
     previousImageUrl := previousImageUrl s;
     showCurrentImage := showCurrentImage s;
     genTime := genTime s;
     isDragOver := isDragOver s;
     showLoading := showLoading s;
     loadingComplete := v;
     referenceImageBase64Ref := referenceImageBase64Ref s;
     dragCounterRef := dragCounterRef s;
     timerIntervalRef := timerIntervalRef s |}.

Definition setReferenceImageBase64Ref (v : js) (s : state) : state :=
  {| apiKey := apiKey s;
     prompt := prompt s;
     modelVariant := modelVariant s;
     isGenerating := isGenerating s;
     editMode := editMode s;
     currentImageUrl := currentImageUrl s;
     previousImageUrl := previousImageUrl s;
     showCurrentImage := showCurrentImage s;
     genTime := genTime s;
     isDragOver := isDragOver s;
     showLoading := showLoading s;
     loadingComplete := loadingComplete s;
     referenceImageBase64Ref := v;
     dragCounterRef := dragCounterRef s;
     timerIntervalRef := timerIntervalRef s |}.

Definition setDragCounterRef (v : Z) (s : state) : state :=
  {| apiKey := apiKey s;
     prompt := prompt s;
     modelVariant := modelVariant s;
     isGenerating := isGenerating s;
     editMode := editMode s;
     currentImageUrl := currentImageUrl s;
     previousImageUrl := previousImageUrl s;
     showCurrentImage := showCurrentImage s;
     genTime := genTime s;
     isDragOver := isDragOver s;
     showLoading := showLoading s;
     loadingComplete := loadingComplete s;
     referenceImageBase64Ref := referenceImageBase64Ref s;
     dragCounterRef := v;
     timerIntervalRef := timerIntervalRef s |}.

Definition setTimerIntervalRef (v : option positive) (s : state) : state :=
  {| apiKey := apiKey s;
     prompt := prompt s;
     modelVariant := modelVariant s;
     isGenerating := isGenerating s;
     editMode := editMode s;
     currentImageUrl := currentImageUrl s;
     previousImageUrl := previousImageUrl s;
     showCurrentImage := showCurrentImage s;
     genTime := genTime s;
     isDragOver := isDragOver s;
     showLoading := showLoading s;
     loadingComplete := loadingComplete s;
     referenceImageBase64Ref := referenceImageBase64Ref s;
     dragCounterRef := dragCounterRef s;
     timerIntervalRef := v |}.

(** The text an [alert] shows; [PlatformText] is the message of an error
    raised by the platform. *)
Inductive message : Type :=
| Text (s : string)
| PlatformText.

(** What the component does to the outside. *)
Inductive effect : Type :=
| Alert (m : message)
| ConsoleError
| Fetch (body : json)
| SetInterval (h : positive)
| ClearInterval (h : positive)
| Preload (src : json)
| StoreKey (v : string)
| RequestFrame.

(** Where a running [handleGenerate] is suspended. *)
Inductive stage : Type :=
| AwaitFetch
| AwaitImage (imageUrl : json).

(** A suspended [handleGenerate]: its [startTime], the [currentImageUrl]
    its closure holds, and the [await] it stands at. *)
Record attempt : Type := {
  startTime : Z;
  closedCurrent : json;
  awaiting : stage
}.

(** A dropped file: its MIME type, what [readAsDataURL] produces ([None]
    when the reader fails) and the URL that [createObjectURL] gives it. *)
Record file : Type := {
  file_type : string;
  data_url : option string;
  object_url : string
}.

(** A suspended [handleDrop], at [await fileToBase64(file)]. *)
Record reading : Type := {
  dropped : file;
  dropCurrent : json
}.

(** The callbacks of the doubled [requestAnimationFrame]. *)
Inductive frame_callback : Type :=
| Outer
| Inner.

(** The component together with what surrounds it: the intervals that are
    set and not cleared (each with the start time its callback closes
    over), the next interval handle, the suspended handlers, the queued
    animation-frame callbacks, and the effects so far, oldest first. *)
Record world : Type := {
  ui : state;
  intervals : list (positive * Z);
  fresh : positive;
  running : option attempt;
  readings : list reading;
  frames : list frame_callback;
  log : list effect
}.

Definition update (f : state -> state) (w : world) : world :=
  {| ui := f (ui w); intervals := intervals w; fresh := fresh w;
     running := running w; readings := readings w; frames := frames w;
     log := log w |}.

Definition emit (e : effect) (w : world) : world :=
  {| ui := ui w; intervals := intervals w; fresh := fresh w;
     running := running w; readings := readings w; frames := frames w;
     log := log w ++ [e] |}.

Definition setRunning (a : option attempt) (w : world) : world :=
  {| ui := ui w; intervals := intervals w; fresh := fresh w;
     running := a; readings := readings w; frames := frames w;
     log := log w |}.

Definition setReadings (l : list reading) (w : world) : world :=
  {| ui := ui w; intervals := intervals w; fresh := fresh w;
     running := running w; readings := l; frames := frames w;
     log := log w |}.

Definition setFrames (l : list frame_callback) (w : world) : world :=
  {| ui := ui w; intervals := intervals w; fresh := fresh w;
     running := running w; readings := readings w; frames := l;
     log := log w |}.

Definition setIntervals (l : list (positive * Z)) (n : positive) (w : world) : world :=
  {| ui := ui w; intervals := l; fresh := n;
     running := running w; readings := readings w; frames := frames w;
     log := log w |}.

Notation "w |> f" := (f w) (at level 45, left associativity, only parsing).

(** [setInterval(callback, 100)], the callback closing over [startTime]. *)
Definition setInterval (startTime : Z) (w : world) : world :=
  let h := fresh w in
  w |> emit (SetInterval h)
    |> setIntervals (intervals w ++ [(h, startTime)]) (Pos.succ h)
    |> update (setTimerIntervalRef (Some h)).

(** [clearInterval(h)] *)
Definition clearInterval (h : positive) (w : world) : world :=
  w |> emit (ClearInterval h)
    |> setIntervals (filter (fun p => negb (Pos.eqb (fst p) h)) (intervals w)) (fresh w).

(** [requestAnimationFrame(() => requestAnimationFrame(() => setShowCurrentImage(true)))] *)
Definition requestFrames (w : world) : world :=
  w |> emit RequestFrame |> setFrames (frames w ++ [Outer]).

(** The state of a freshly mounted component; [savedKey] is what
    [localStorage.getItem('bfl_api_key')] returns. *)
Definition mount (savedKey : option string) : world :=
  {| ui := {| apiKey := match savedKey with
                        | Some k => k
                        | None => ""
                        end;
              prompt := ""; modelVariant := "9b"; isGenerating := false;
              editMode := false; currentImageUrl := JNull;
              previousImageUrl := JNull; showCurrentImage := false;
              genTime := ""; isDragOver := false; showLoading := false;
              loadingComplete := false;
              referenceImageBase64Ref := Some JNull; dragCounterRef := 0;
              timerIntervalRef := None |};
     intervals := []; fresh := 1%positive; running := None; readings := [];
     frames := []; log := [] |}.

Definition handleApiKeyChange (value : string) (w : world) : world :=
  w |> update (setApiKey value) |> emit (StoreKey value).

(** Text after the first comma, up to the next one: [s.split(',')[1]]. *)
Fixpoint until_comma (s : string) : string :=
  match s with
  | EmptyString => ""
  | String c rest => if Ascii.eqb c ","%char then "" else String c (until_comma rest)
  end.

Fixpoint split_second (s : string) : option string :=
  match s with
  | EmptyString => None
  | String c rest => if Ascii.eqb c ","%char then Some (until_comma rest) else split_second rest
  end.

(** What [fileToBase64] resolves with, given the data URL. *)
Definition fileToBase64 (dataUrl : string) : js :=
  option_map JStr (split_second dataUrl).

(** How the call of [generateImage] ends before any [await] resumes. *)
Inductive started : Type :=
| ReturnedNull
| Raised (e : thrown)
| Sent.

(** [generateImage] up to [await fetch(...)]. *)
Definition generateImage (promptText : string) (w : world) : world * started :=
  let s := ui w in
  if apiKey s =? "" then
    (w |> emit (Alert (Text "Please enter your BFL API key")), ReturnedNull)
  else
    let body :=
      [("prompt", JStr promptText); ("apiKey", JStr (apiKey s));
       ("variant", JStr (modelVariant s))] in
    if editMode s && truthy_json (currentImageUrl s) then
      match currentImageUrl s with
      | JStr url =>
          if starts_with "blob:" url then
            (w |> emit (Fetch (JObj (body ++ match referenceImageBase64Ref s with
                                             | Some v => [("image", v)]
                                             | None => []
                                             end))), Sent)
          else (w |> emit (Fetch (JObj (body ++ [("imageUrl", JStr url)]))), Sent)
      | _ => (w, Raised EngineErr)
      end
    else (w |> emit (Fetch (JObj body)), Sent).

(** What the proxy's reply looks like to [generateImage]; [data] is what
    [response.json()] settles with. *)
Record reply : Type := {
  ok : bool;
  status : Z;
  data : option json
}.

Inductive settled : Type :=
| NetworkFailure (message : string)
| Response (r : reply).

(** [generateImage] from the point where [fetch] settles. *)
Definition generateImage_resume (f : settled) : completion js :=
  match f with
  | NetworkFailure m => Throw (Err m)
  | Response r =>
      let failed := "Request failed (" ++ number_to_string (status r) ++ ")" in
      match data r with
      | None => Throw (Err failed)
      | Some d =>
          if negb (ok r) then
            error <- get "error" d ;;
            message <- to_string_json (first_truthy [error] (JStr failed)) ;;
            Throw (Err message)
          else get "url" d
      end
  end.

Definition shown (e : thrown) : message :=
  match e with
  | Err m => Text m
  | EngineErr => PlatformText
  | Rejected => Text "Generation failed"
  end.

Section Handlers.

(** [toFixed1 ms] stands for [(ms / 1000).toFixed(1)], the formatting of a
    double, which is left to the platform. *)
Variable toFixed1 : Z -> string.

(** [if (timerIntervalRef.current) clearInterval(timerIntervalRef.current)] *)
Definition stopTimer (w : world) : world :=
  match timerIntervalRef (ui w) with
  | Some h => clearInterval h w
  | None => w
  end.

(** The [finally] block. *)
Definition finally (w : world) : world :=
  w |> update (setIsGenerating false) |> setRunning None.

(** The [catch] block. *)
Definition catch (e : thrown) (w : world) : world :=
  w |> stopTimer
    |> update (setGenTime "")
    |> emit ConsoleError
    |> emit (Alert (shown e))
    |> update (setShowLoading false)
    |> update (setLoadingComplete false).

(** [handleGenerate] from the return of [generateImage] to the [await] of
    the preload (lines 111-126); [now] is what [Date.now()] reads. *)
Definition generated (a : attempt) (now : Z) (imageUrl : js) (w : world) : world :=
  let w := w |> stopTimer
             |> update (setGenTime (toFixed1 (now - startTime a) ++ "s"))
             |> update (setLoadingComplete true) in
  if truthy imageUrl then
    w |> emit (Preload (defined imageUrl))
      |> setRunning (Some {| startTime := startTime a;
                             closedCurrent := closedCurrent a;
                             awaiting := AwaitImage (defined imageUrl) |})
  else finally w.

(** [handleGenerate] after the preload succeeded (lines 128-142). *)
Definition preloaded (a : attempt) (imageUrl : json) (w : world) : world :=
  let w := if truthy_json (closedCurrent a) then
             w |> update (setPreviousImageUrl (closedCurrent a))
               |> update (setShowCurrentImage false)
           else w in
  w |> update (setCurrentImageUrl imageUrl)
    |> update (setShowLoading false)
    |> update (setLoadingComplete false)
    |> requestFrames
    |> finally.

(** [handleGenerate], called at time [now].  When [generateImage] comes
    back without awaiting the network, the handler runs on in the same
    turn of the event loop; [later] is the clock it then reads. *)
Definition handleGenerate (now later : Z) (w : world) : world :=
  let trimmedPrompt := trim (prompt (ui w)) in
  if (trimmedPrompt =? "") || isGenerating (ui w) then w
  else
    let a := {| startTime := now; closedCurrent := currentImageUrl (ui w);
                awaiting := AwaitFetch |} in
    let w := w |> update (setIsGenerating true)
               |> update (setShowLoading true)
               |> update (setLoadingComplete false)
               |> update (setGenTime "0.0s")
               |> setInterval now in
    match generateImage trimmedPrompt w with
    | (w, ReturnedNull) => w |> generated a later (Some JNull)
    | (w, Raised e) => w |> catch e |> finally
    | (w, Sent) => w |> setRunning (Some a)
    end.

(** The [fetch] of the running attempt settles. *)
Definition fetchSettled (f : settled) (now : Z) (w : world) : world :=
  match running w with
  | Some a =>
      match awaiting a with
      | AwaitFetch =>
          match generateImage_resume f with
          | Normal imageUrl => w |> generated a now imageUrl
          | Throw e => w |> catch e |> finally
          end
      | AwaitImage _ => w
      end
  | None => w
  end.

(** The image being preloaded fires [load] ([loaded = true]) or [error]. *)
Definition imageSettled (loaded : bool) (w : world) : world :=
  match running w with
  | Some a =>
      match awaiting a with
      | AwaitImage imageUrl =>
          if loaded then w |> preloaded a imageUrl
          else w |> catch Rejected |> finally
      | AwaitFetch => w
      end
  | None => w
  end.

(** The callback of interval [h] runs at time [now]. *)
Definition tick (h : positive) (now : Z) (w : world) : world :=
  match find (fun p => Pos.eqb (fst p) h) (intervals w) with
  | Some (_, startTime) => w |> update (setGenTime (toFixed1 (now - startTime) ++ "s"))
  | None => w
  end.

Definition handleKeyDown (key : string) (now later : Z) (w : world) : world :=
  if key =? "Enter" then handleGenerate now later w else w.

Definition handleDragEnter (w : world) : world :=
  w |> update (fun s => setDragCounterRef (dragCounterRef s + 1) s)
    |> update (setIsDragOver true).

Definition handleDragOver (w : world) : world := w.

Definition handleDragLeave (w : world) : world :=
  let w := w |> update (fun s => setDragCounterRef (dragCounterRef s - 1) s) in
  if (dragCounterRef (ui w) =? 0)%Z then w |> update (setIsDragOver false) else w.

(** [handleDrop] up to [await fileToBase64(file)]; [first] is
    [e.dataTransfer.files[0]]. *)
Definition handleDrop (first : option file) (w : world) : world :=
  let closed := currentImageUrl (ui w) in
  let w := w |> update (setDragCounterRef 0) |> update (setIsDragOver false) in
  match first with
  | Some f =>
      if starts_with "image/" (file_type f) then
        w |> setReadings (readings w ++ [{| dropped := f; dropCurrent := closed |}])
      else w
  | None => w
  end.

(** The oldest pending [fileToBase64] settles; [handleDrop] runs on. *)
Definition fileRead (w : world) : world :=
  match readings w with
  | [] => w
  | r :: rest =>
      let w := w |> setReadings rest in
      match data_url (dropped r) with
      | None => w
      | Some dataUrl =>
          let w := w |> update (setReferenceImageBase64Ref (fileToBase64 dataUrl)) in
          let w := if truthy_json (dropCurrent r) then
                     w |> update (setPreviousImageUrl (dropCurrent r))
                       |> update (setShowCurrentImage false)
                   else w in
          w |> update (setCurrentImageUrl (JStr (object_url (dropped r))))
            |> update (setEditMode true)
            |> requestFrames
      end
  end.

(** One animation frame: the queued callbacks run; an outer one queues its
    inner one for the next frame. *)
Definition animationFrame (w : world) : world :=
  fold_left
    (fun w cb =>
       match cb with
       | Outer => w |> emit RequestFrame |> setFrames (frames w ++ [Inner])
       | Inner => w |> update (setShowCurrentImage true)
       end)
    (frames w) (w |> setFrames []).

(** The click on the edit-mode switch: [hasImage && setEditMode(!editMode)]. *)
Definition toggleEditMode (w : world) : world :=
  match currentImageUrl (ui w) with
  | JNull => w
  | _ => w |> update (fun s => setEditMode (negb (editMode s)) s)
  end.

(** What can happen to the component. *)
Inductive event : Type :=
| ApiKeyChange (value : string)
| PromptChange (value : string)
| VariantChange (value : string)
| EditModeClick
| KeyDown (key : string) (now later : Z)
| FetchSettled (f : settled) (now : Z)
| ImageSettled (loaded : bool)
| Tick (h : positive) (now : Z)
| DragEnter
| DragOver
| DragLeave
| Drop (first : option file)
| FileRead
| AnimationFrame.

Definition step (w : world) (e : event) : world :=
  match e with
  | ApiKeyChange v => handleApiKeyChange v w
  | PromptChange v => w |> update (setPrompt v)
  | VariantChange v => w |> update (setModelVariant v)
  | EditModeClick => toggleEditMode w
  | KeyDown key now later => handleKeyDown key now later w
  | FetchSettled f now => fetchSettled f now w
  | ImageSettled loaded => imageSettled loaded w
  | Tick h now => tick h now w
  | DragEnter => handleDragEnter w
  | DragOver => handleDragOver w
  | DragLeave => handleDragLeave w
  | Drop first => handleDrop first w
  | FileRead => fileRead w
  | AnimationFrame => animationFrame w
  end.

Definition run (w : world) (events : list event) : world :=
  fold_left step events w.

End Handlers.

(** [cx(...classes)]: [classes.filter(Boolean).join(' ')].  An entry is a
    string, or [None] for [false], [undefined] and [null]; the empty
    string is falsy as well. *)
Definition cx (classes : list (option string)) : string :=
  String.concat " "
    (flat_map (fun c => match c with
                        | Some name => if name =? "" then [] else [name]
                        | None => []
                        end) classes).

(** [flag && name] as an entry of [cx]. *)
Definition and_class (flag : bool) (name : string) : option string :=
  if flag then Some name else None.

(** The CSS module; every class stands for itself. *)
Module styles.
Definition imageContainer : string := "imageContainer".
Definition dragOver : string := "dragOver".
Definition dropOverlay : string := "dropOverlay".
Definition visible : string := "visible".
Definition loadingOverlay : string := "loadingOverlay".
Definition complete : string := "complete".
Definition generatedImage : string := "generatedImage".
Definition previous : string := "previous".
Definition current : string := "current".
Definition show : string := "show".
Definition editModeToggle : string := "editModeToggle".
Definition toggleSwitch : string := "toggleSwitch".
Definition active : string := "active".
Definition disabled : string := "disabled".
End styles.

(** [hasImage]: [currentImageUrl !== null]. *)
Definition hasImage (s : state) : bool :=
  match currentImageUrl s with
  | JNull => false
  | _ => true
  end.

(** What of the rendered tree depends on the state: the values of the
    inputs, the class names, the [src] of each image that is rendered
    (the current one with its class names), whether the placeholder is
    rendered, and the text of the readout. *)
Record view : Type := {
  apiKeyValue : string;
  modelVariantValue : string;
  imageContainerClass : string;
  dropOverlayClass : string;
  loadingOverlayClass : string;
  previousImg : option json;
  currentImg : option (json * string);
  placeholder : bool;
  editModeToggleClass : string;
  toggleSwitchClass : string;
  promptValue : string;
  genTimeText : string
}.

(** The JSX that [ImageGenerator] returns. *)
Definition render (s : state) : view :=
  {| apiKeyValue := apiKey s;
     modelVariantValue := modelVariant s;
     imageContainerClass :=
       cx [Some styles.imageContainer; and_class (isDragOver s) styles.dragOver];
     dropOverlayClass :=
       cx [Some styles.dropOverlay; and_class (isDragOver s) styles.visible];
     loadingOverlayClass :=
       cx [Some styles.loadingOverlay;
           and_class (showLoading s) styles.visible;
           and_class (loadingComplete s) styles.complete];
     previousImg :=
       if truthy_json (previousImageUrl s) then Some (previousImageUrl s) else None;
     currentImg :=
       if truthy_json (currentImageUrl s) then
         Some (currentImageUrl s,
               cx [Some styles.generatedImage; Some styles.current;
                   and_class (showCurrentImage s) styles.show])
       else None;
     placeholder := negb (hasImage s);
     editModeToggleClass :=
       cx [Some styles.editModeToggle; and_class (negb (hasImage s)) styles.disabled];
     toggleSwitchClass :=
       cx [Some styles.toggleSwitch;
           and_class (editMode s) styles.active;
           and_class (negb (hasImage s)) styles.disabled];
     promptValue := prompt s;
     genTimeText := genTime s |}.

End Controller.

(* ================================================================== *)
(** ** Vocabulary of the properties                                     *)
(* ================================================================== *)

Import Proxy.

(** A successful response whose body parses to [j]. *)
Definition ok_json (j : json) : response :=
  {| Proxy.ok := true; Proxy.status := 200; json_body := Some j;
     text_body := None; array_buffer := None; reusable := false |}.

(** A poll response that keeps the loop going: HTTP success, and a parsed
    body whose [status] is the string [Pending]. *)
Definition pending (r : response) : bool :=
  Proxy.ok r &&
  match json_body r with
  | Some result => is_string "Pending" (field "status" result)
  | None => false
  end.

(** How the loop ends on a parsed poll body whose status is not
    [Pending], in the words of the design document but for three points
    on which the code is followed: a sample or a field counts when it is
    truthy, the synthesized message is worded as the code words it, and
    a status that cannot be converted to a string makes the handler
    throw. *)
Definition terminal_reply (result : json) : outcome :=
  let st := field "status" result in
  let sample := get_opt "sample" (field "result" result) in
  if is_string "Ready" st && truthy sample then
    Replied 200 (JObj [("url", defined sample)])
  else if truthy (field "error" result) then
    Replied 500 (JObj [("error", defined (field "error" result))])
  else if truthy (field "message" result) then
    Replied 500 (JObj [("error", defined (field "message" result))])
  else if truthy (field "detail" result) then
    Replied 500 (JObj [("error", defined (field "detail" result))])
  else
    match to_string st with
    | Normal text => Replied 500 (JObj [("error", JStr ("Generation failed: " ++ text))])
    | Throw e => Crashed e
    end.



Definition is_fetch_image (c : call) : bool :=
  match c with
  | FetchImage _ => true
  | _ => false
  end.

Definition is_poll (c : call) : bool :=
  match c with
  | Poll _ _ => true
  | _ => false
  end.



(** A provider error with a JSON body under a status with which the
    [Response] constructor takes no body. *)
Definition not_modified : response :=
  {| Proxy.ok := false; Proxy.status := 304;
     json_body := Some (JObj [("detail", JStr "Not Modified")]);
     text_body := Some ("{" ++ dq ++ "detail" ++ dq ++ ":" ++ dq ++ "Not Modified" ++ dq ++ "}");
     array_buffer := None; reusable := false |}.


Definition cat_request : json :=
  JObj [("prompt", JStr "a cat"); ("apiKey", JStr "test-key")].

Definition blank_prompt_request : json :=
  JObj [("prompt", JStr "   "); ("apiKey", JStr "test-key")].

Definition both_images_request : json :=
  JObj [("prompt", JStr "edit this"); ("apiKey", JStr "test-key");
        ("image", JStr "iVBORw0KGgo="); ("imageUrl", JStr "https://example.com/source.png")].

Import Controller.

(** Events other than the settling of the running attempt's [fetch] or of
    its image preload. *)
Definition quiet (e : event) : bool :=
  match e with
  | FetchSettled _ _ | ImageSettled _ => false
  | _ => true
  end.

(** The number of calls to the proxy among the effects. *)
Fixpoint fetches (l : list effect) : nat :=
  match l with
  | [] => 0
  | Fetch _ :: rest => S (fetches rest)
  | _ :: rest => fetches rest
  end.

(** The number of [clearInterval] calls among the effects. *)
Fixpoint stops (l : list effect) : nat :=
  match l with
  | [] => 0
  | ClearInterval _ :: rest => S (stops rest)
  | _ :: rest => stops rest
  end.

(** The declared type of [currentImageUrl]: a string or [null]. *)
Definition url_or_null (v : json) : bool :=
  match v with
  | JNull | JStr _ => true
  | _ => false
  end.

(** The timer and the running attempt agree: no attempt, no interval and
    the flag down; an attempt awaiting the network, exactly its interval;
    an attempt awaiting the preload, no interval. *)
Definition consistent (w : world) : Prop :=
  match running w with
  | None => isGenerating (ui w) = false /\ intervals w = []
  | Some a =>
      isGenerating (ui w) = true
      /\ exists h, timerIntervalRef (ui w) = Some h
                   /\ intervals w = match awaiting a with
                                    | AwaitFetch => [(h, startTime a)]
                                    | AwaitImage _ => []
                                    end
  end.

(** The nesting depth that a well-nested sequence of drag events reaches
    from depth [d]; [None] when a leave comes at depth zero. *)
Fixpoint nesting (d : Z) (events : list event) : option Z :=
  match events with
  | [] => Some d
  | DragEnter :: rest => nesting (d + 1) rest
  | DragLeave :: rest => if (0 <? d)%Z then nesting (d - 1) rest else None
  | Drop _ :: rest => nesting 0 rest
  | _ :: rest => nesting d rest
  end.

(** What of the world an attempt in flight depends on. *)
Definition session (w : world)
  : bool * option attempt * option positive * list (positive * Z) * positive * nat * nat :=
  (isGenerating (ui w), running w, timerIntervalRef (ui w), intervals w, fresh w,
   fetches (log w), stops (log w)).

(** The drag counter and the drag-active flag. *)
Definition drag (w : world) : Z * bool :=
  (dragCounterRef (ui w), isDragOver (ui w)).

Definition is_key (e : event) : bool :=
  match e with
  | KeyDown _ _ _ => true
  | _ => false
  end.

Definition is_drag (e : event) : bool :=
  match e with
  | DragEnter | DragLeave | Drop _ => true
  | _ => false
  end.

(** A prompt that holds white space only. *)
Definition blank (s : string) : bool :=
  forallb (fun c => is_space (fst c)) (chars s).

(** A string of one byte. *)
Definition byte_string (n : nat) : string := String (ascii_of_nat n) "".

(** White space of several kinds: a space, a tab, a no-break space, a
    line separator, an ideographic space and a byte order mark, in
    UTF-8, and a no-break space as a single byte. *)
Definition white_prompt : string :=
  " " ++ byte_string 9
      ++ byte_string 194 ++ byte_string 160
      ++ byte_string 226 ++ byte_string 128 ++ byte_string 168
      ++ byte_string 227 ++ byte_string 128 ++ byte_string 128
      ++ byte_string 239 ++ byte_string 187 ++ byte_string 191
      ++ byte_string 160.

(** A stand-in for the platform's formatting of the elapsed time, used to
    run the model on examples: seconds and tenths, truncated. *)
Definition tenths (ms : Z) : string :=
  decimal (ms / 1000) ++ "." ++ decimal ((ms / 100) mod 10).

Definition url_reply (url : string) : settled :=
  Response {| Controller.ok := true; Controller.status := 200;
              data := Some (JObj [("url", JStr url)]) |}.

(** A mounted component with a credential and a prompt typed in. *)
Definition ready_world : world :=
  run tenths (mount None) [ApiKeyChange "test-key"; PromptChange "a cat"].

(** A mounted component with a credential and a prompt typed in between
    white space of several kinds. *)
Definition padded_world : world :=
  run tenths (mount None)
    [ApiKeyChange "test-key"; PromptChange (white_prompt ++ "a cat" ++ white_prompt)].

(** A mounted component with a prompt typed in and no credential. *)
Definition keyless_world : world :=
  run tenths (mount None) [PromptChange "a cat"].

(** A dropped PNG file. *)
Definition png_file : file :=
  {| file_type := "image/png";
     data_url := Some "data:image/png;base64,iVBORw0KGgo=";
     object_url := "blob:http://localhost/1" |}.

(** A component showing a first image, with a second prompt typed in. *)
Definition second_world : world :=
  run tenths ready_world
    [KeyDown "Enter" 1000 1000; FetchSettled (url_reply "https://example.com/first.png") 2500;
     ImageSettled true; AnimationFrame; AnimationFrame; PromptChange "a dog"].

(** The fields of the provider payload that every submission carries. *)
Definition base_payload (req : json) : list (string * json) :=
  [("prompt", defined (field "prompt" req)); ("width", JNum 768);
   ("height", JNum 768); ("prompt_upsampling", JBool false)].

(** One call per response: a handler that has ended has issued no more
    calls than the network gave responses, and one that is still awaiting
    has issued exactly one more. *)
Definition paced (r : outcome * list call) (net : list fetched) : Prop :=
  match fst r with
  | Awaiting => List.length (snd r) = S (List.length net)
  | _ => (List.length (snd r) <= List.length net)%nat
  end.

(** The endpoint a request selects. *)
Definition endpoint_of (req : json) : string :=
  if is_string "4b" (field "variant" req) then BFL_API_4B else BFL_API_9B.

Definition is_submit (c : call) : bool :=
  match c with
  | Submit _ _ _ => true
  | _ => false
  end.


(** What the route makes of a result of the tests' copy: where the copy
    returns [{..., status}], the route constructs a [Response] with that
    status, and the constructor can refuse it. *)
Definition constructed (o : outcome) : outcome :=
  match o with
  | Replied st body => respond st body
  | _ => o
  end.

(** The reply with which the tests' copy of the handler gives up. *)
Definition polling_timeout : outcome :=
  Replied 500 (JObj [("error", JStr "Polling timeout")]).

(** A request that carries a source URL and no inline image. *)
Definition url_image_request : json :=
  JObj [("prompt", JStr "edit this"); ("apiKey", JStr "test-key");
        ("imageUrl", JStr "https://example.com/source.png")].

(** The response to the fetch of a four-byte image. *)
Definition png_response : response :=
  {| Proxy.ok := true; Proxy.status := 200; json_body := None; text_body := None;
     array_buffer := Some [Byte.x89; Byte.x50; Byte.x4e; Byte.x47];
     reusable := false |}.

Definition pending_poll : response := ok_json (JObj [("status", JStr "Pending")]).

(** The value last written to [localStorage] among the effects. *)
Fixpoint last_stored (l : list effect) : option string :=
  match l with
  | [] => None
  | StoreKey v :: rest =>
      match last_stored rest with
      | Some later => Some later
      | None => Some v
      end
  | _ :: rest => last_stored rest
  end.

(** What [localStorage.getItem('bfl_api_key')] returns after the effects
    [l], when it returned [savedKey] before them. *)
Definition stored_key (savedKey : option string) (l : list effect) : option string :=
  match last_stored l with
  | Some v => Some v
  | None => savedKey
  end.

(** An image is on show whenever edit mode is on or a previous image is
    kept, and an image being preloaded is not [null]. *)
Definition imaged (w : world) : Prop :=
  (editMode (ui w) = true -> currentImageUrl (ui w) <> JNull)
  /\ (previousImageUrl (ui w) <> JNull -> currentImageUrl (ui w) <> JNull)
  /\ (forall a u, running w = Some a -> awaiting a = AwaitImage u -> u <> JNull).

Fixpoint no_comma (s : string) : bool :=
  match s with
  | EmptyString => true
  | String c rest => negb (Ascii.eqb c ","%char) && no_comma rest
  end.

(** A request body as [generateImage] builds it from the state [s]: the
    trimmed prompt, the credential and the model variant, all present;
    never both an inline image and a source URL; neither of them unless
    edit mode is on; and a source URL, if any, that is the current
    image. *)
Definition well_built (s : state) (body : json) : Prop :=
  field "prompt" body = Some (JStr (trim (prompt s)))
  /\ trim (prompt s) <> ""
  /\ field "apiKey" body = Some (JStr (apiKey s))
  /\ apiKey s <> ""
  /\ field "variant" body = Some (JStr (modelVariant s))
  /\ (field "image" body = None \/ field "imageUrl" body = None)
  /\ (editMode s = false ->
      field "image" body = None /\ field "imageUrl" body = None)
  /\ (field "imageUrl" body <> None ->
      field "imageUrl" body = Some (currentImageUrl s)).

(** The attempt in flight fails at the event [ev] with [e] thrown: its
    call settles with a rejection, an unreadable reply or an error reply,
    or its preload fires [error]. *)
Definition fails (w : world) (ev : event) (e : thrown) : Prop :=
  exists a,
    running w = Some a
    /\ ((awaiting a = AwaitFetch
         /\ exists f now, ev = FetchSettled f now /\ generateImage_resume f = Throw e)
        \/ (exists u, awaiting a = AwaitImage u)
           /\ ev = ImageSettled false /\ e = Rejected).

(** The loading overlay follows the attempt: up and not yet complete
    while the call is awaited, up and complete while the image is
    preloaded, and never complete while down. *)
Definition overlaid (w : world) : Prop :=
  match running w with
  | Some a =>
      isGenerating (ui w) = true
      /\ showLoading (ui w) = true
      /\ loadingComplete (ui w) = match awaiting a with
                                  | AwaitFetch => false
                                  | AwaitImage _ => true
                                  end
  | None =>
      isGenerating (ui w) = false
      /\ (loadingComplete (ui w) = true -> showLoading (ui w) = true)
  end.





(** What the alert shows for [new Error(m)]: [m] converted to a string,
    or, when that conversion throws, the message of the [TypeError]. *)
Definition alerted (m : json) : message :=
  match to_string_json m with
  | Normal text => Text text
  | Throw _ => PlatformText
  end.

(** The proxy's reply as the controller's [fetch] sees it. *)
Definition as_reply (is_ok : bool) (st : Z) (body : json) : settled :=
  Response {| Controller.ok := is_ok; Controller.status := st; data := Some body |}.

(* ================================================================== *)
(** ** Properties of the proxy                                          *)
(* ================================================================== *)

Section ProxyProperties.

Lemma get_field (k : string) (v : json) :
  v <> JNull -> get k v = Normal (field k v).
Proof. destruct v; intros H; solve [reflexivity | contradiction]. Qed.

Lemma truthy_defined (v : js) : truthy v = true -> v = Some (defined v).
Proof. destruct v; simpl; [reflexivity | discriminate]. Qed.

Lemma truthy_field_object (k : string) (v : json) :
  truthy (field k v) = true -> exists fields, v = JObj fields.
Proof.
  destruct v; simpl; try discriminate. intros _. eauto.
Qed.

Lemma poll_loop_only_polls (pollUrl apiKey : json) (net : list fetched) :
  forallb is_poll (snd (poll_loop pollUrl apiKey net)) = true.
Proof.
  induction net as [| f net IH]; simpl; [reflexivity |].
  destruct f as [| pollRes]; simpl; [reflexivity |].
  destruct (poll_step pollRes); simpl; [reflexivity | exact IH].
Qed.

Lemma submit_calls (apiUrl : string) (apiKey body : json) (net : list fetched) :
  exists polls,
    snd (submit apiUrl apiKey body net) = Submit apiUrl apiKey body :: polls
    /\ forallb is_poll polls = true.
Proof.
  unfold submit, after. simpl snd. eexists. split; [reflexivity |].
  destruct net as [| [| submitRes] net]; simpl; try reflexivity.
  destruct (negb (Proxy.ok submitRes)); simpl; [reflexivity |].
  destruct (json_body submitRes) as [submitData |]; simpl; [| reflexivity].
  destruct (get "sample" submitData) as [sample | e]; simpl; [| reflexivity].
  destruct (truthy sample); simpl; [reflexivity |].
  destruct (field "polling_url" submitData) as [pollUrl |]; simpl; [| reflexivity].
  destruct (truthy_json pollUrl); simpl; [| reflexivity].
  apply (poll_loop_only_polls pollUrl apiKey net).
Qed.

(** C2 (amended).  A request whose prompt is missing or falsy, or whose
    credential is missing or falsy, is answered with status 400 and the
    message [Missing prompt or API key], and no network call is issued.
    The prompt is not trimmed by the proxy. *)
Theorem missing_input_rejected (req : json) (net : list fetched) :
  req <> JNull ->
  truthy (field "prompt" req) = false \/ truthy (field "apiKey" req) = false ->
  POST (Some req) net
  = (Replied 400 (JObj [("error", JStr "Missing prompt or API key")]), []).
Proof.
  intros Hreq Hmissing.
  assert (Hguard : negb (truthy (field "prompt" req))
                   || negb (truthy (field "apiKey" req)) = true).
  { destruct Hmissing as [H | H]; rewrite H; simpl;
      [reflexivity | apply orb_true_r]. }
  destruct req; try congruence; unfold POST; rewrite Hguard; reflexivity.
Qed.

Lemma missing_input_rejected_witness :
  POST (Some (JObj [("apiKey", JStr "test-key")])) [NetworkError]
  = (Replied 400 (JObj [("error", JStr "Missing prompt or API key")]), []).
Proof.
  apply missing_input_rejected; [discriminate | left; reflexivity].
Defined.

(** C2 as stated fails: a prompt of three spaces is empty after trimming,
    yet the proxy submits it to the provider and relays the result. *)
Lemma blank_prompt_is_submitted :
  trim "   " = ""
  /\ POST (Some blank_prompt_request)
       [Resolved (ok_json (JObj [("sample", JStr "https://x/img.png")]))]
     = (Replied 200 (JObj [("url", JStr "https://x/img.png")]),
        [Submit BFL_API_9B (JStr "test-key")
           (JObj [("prompt", JStr "   "); ("width", JNum 768);
                  ("height", JNum 768); ("prompt_upsampling", JBool false)])]).
Proof. split; reflexivity. Qed.

(** C4 (amended).  A successful submission response with neither a truthy
    [sample] nor a truthy [polling_url] is answered with status 500 and the
    message [No polling URL in response]; the submission is the only call. *)
Theorem no_polling_url_reply
    (apiUrl : string) (apiKey body : json) (submitRes : response)
    (submitData : json) (net : list fetched) :
  Proxy.ok submitRes = true ->
  json_body submitRes = Some submitData ->
  submitData <> JNull ->
  truthy (field "sample" submitData) = false ->
  truthy (field "polling_url" submitData) = false ->
  submit apiUrl apiKey body (Resolved submitRes :: net)
  = (Replied 500 (JObj [("error", JStr "No polling URL in response")]),
     [Submit apiUrl apiKey body]).
Proof.
  intros Hok Hbody Hnull Hsample Hpoll.
  unfold submit. rewrite Hok, Hbody, (get_field _ _ Hnull), Hsample. simpl.
  destruct (field "polling_url" submitData) as [pollUrl |]; [| reflexivity].
  simpl in Hpoll. rewrite Hpoll. reflexivity.
Qed.

Lemma no_polling_url_reply_witness :
  submit BFL_API_9B (JStr "test-key") (JObj [("prompt", JStr "a cat")])
    [Resolved (ok_json (JObj []))]
  = (Replied 500 (JObj [("error", JStr "No polling URL in response")]),
     [Submit BFL_API_9B (JStr "test-key") (JObj [("prompt", JStr "a cat")])]).
Proof.
  apply (no_polling_url_reply _ _ _ (ok_json (JObj [])) (JObj []));
    solve [reflexivity | discriminate].
Defined.

(** C4 as stated fails: for the submission response [{}] the message is
    not [no polling handle in response]. *)
Lemma polling_handle_message_differs :
  fst (POST (Some cat_request) [Resolved (ok_json (JObj []))])
  <> Replied 500 (JObj [("error", JStr "no polling handle in response")]).
Proof. vm_compute. discriminate. Qed.

(** C10.  When the request carries a truthy inline [image], whatever its
    [imageUrl], the first call is the submission with [input_image] equal
    to that image, every later call is a poll, and [urlToBase64] never
    fetches the source URL. *)
Theorem inline_image_takes_precedence (req : json) (net : list fetched) :
  truthy (field "prompt" req) = true ->
  truthy (field "apiKey" req) = true ->
  truthy (field "image" req) = true ->
  exists apiUrl requestBody polls,
    snd (POST (Some req) net)
    = Submit apiUrl (defined (field "apiKey" req)) requestBody :: polls
    /\ field "input_image" requestBody = field "image" req
    /\ forallb is_poll polls = true
    /\ existsb is_fetch_image (snd (POST (Some req) net)) = false.
Proof.
  intros Hprompt Hkey Himage.
  destruct (truthy_field_object _ _ Hprompt) as [fields ->].
  unfold POST. rewrite Hprompt, Hkey, Himage. cbn [negb orb].
  match goal with
  | |- context [submit ?u ?k ?b net] =>
      destruct (submit_calls u k b net) as [polls [Hcalls Hpolls]];
      exists u, b, polls
  end.
  rewrite Hcalls. repeat split.
  - cbn. apply truthy_defined in Himage. symmetry. exact Himage.
  - exact Hpolls.
  - cbn [existsb is_fetch_image orb].
    clear Hcalls. induction polls as [| c polls IH]; [reflexivity |].
    simpl in Hpolls. apply andb_true_iff in Hpolls as [Hc Hrest].
    destruct c; try discriminate. simpl. apply IH, Hrest.
Qed.

Lemma inline_image_takes_precedence_witness :
  exists apiUrl requestBody polls,
    snd (POST (Some both_images_request) [])
    = Submit apiUrl (JStr "test-key") requestBody :: polls
    /\ field "input_image" requestBody = Some (JStr "iVBORw0KGgo=")
    /\ forallb is_poll polls = true
    /\ existsb is_fetch_image (snd (POST (Some both_images_request) [])) = false.
Proof.
  apply (inline_image_takes_precedence both_images_request []); reflexivity.
Defined.


Lemma pending_continues (r : response) :
  pending r = true -> poll_step r = Continue.
Proof.
  unfold pending, poll_step. intros H.
  apply andb_true_iff in H as [Hok H]. rewrite Hok. simpl.
  destruct (json_body r) as [result |]; [| discriminate].
  destruct result; try discriminate. simpl in *.
  destruct (assoc "status" fields) as [[| | | s | | |] |]; try discriminate.
  simpl in H. apply String.eqb_eq in H. subst s. reflexivity.
Qed.

Lemma first_truthy_or_cons (v : js) (rest : list js) (last : completion json) :
  first_truthy_or (v :: rest) last
  = if truthy v then Normal (defined v) else first_truthy_or rest last.
Proof. destruct v as [j |]; simpl; [destruct (truthy_json j) |]; reflexivity. Qed.

Lemma terminal_leaves (r : response) (result : json) :
  Proxy.ok r = true ->
  json_body r = Some result ->
  result <> JNull ->
  is_string "Pending" (field "status" result) = false ->
  poll_step r = Leave (terminal_reply result).
Proof.
  intros Hok Hbody Hnull Hpending.
  unfold poll_step, terminal_reply, failure_message.
  rewrite Hok, Hbody, (get_field _ _ Hnull), Hpending. cbn [negb].
  destruct (is_string "Ready" (field "status" result)
            && truthy (get_opt "sample" (field "result" result)));
    [reflexivity |].
  rewrite !first_truthy_or_cons.
  destruct (truthy (field "error" result)); [reflexivity |].
  destruct (truthy (field "message" result)); [reflexivity |].
  destruct (truthy (field "detail" result)); [reflexivity |].
  cbn [first_truthy_or bind].
  destruct (to_string (field "status" result)); reflexivity.
Qed.

(** The loop skips polls that are pending and ends at the first response
    that makes [poll_step] leave, with one call per response read. *)
Lemma poll_loop_skips_pending
    (pollUrl apiKey : json) (pre : list response) (r : response) (o : outcome)
    (post : list fetched) :
  forallb pending pre = true ->
  poll_step r = Leave o ->
  poll_loop pollUrl apiKey (map Resolved pre ++ Resolved r :: post)
  = (o, repeat (Poll pollUrl apiKey) (S (List.length pre))).
Proof.
  intros Hpre Hr. induction pre as [| p pre IH]; simpl.
  - rewrite Hr. reflexivity.
  - simpl in Hpre. apply andb_true_iff in Hpre as [Hp Hpre].
    rewrite (pending_continues p Hp), (IH Hpre). reflexivity.
Qed.

Lemma poll_loop_all_pending (pollUrl apiKey : json) (pre : list response) :
  forallb pending pre = true ->
  poll_loop pollUrl apiKey (map Resolved pre)
  = (Awaiting, repeat (Poll pollUrl apiKey) (S (List.length pre))).
Proof.
  intros Hpre. induction pre as [| p pre IH]; simpl; [reflexivity |].
  simpl in Hpre. apply andb_true_iff in Hpre as [Hp Hpre].
  rewrite (pending_continues p Hp), (IH Hpre). reflexivity.
Qed.

(** C1 (amended).  Over any sequence of poll responses, the loop passes
    over the successful polls whose status is [Pending] and ends at the
    first successful poll whose status is anything else, having issued one
    call per response read.  [Ready] with a truthy sample gives status 200
    and [url] equal to the sample; any other status, [Ready] without a
    truthy sample included, gives status 500 with the first truthy of
    [error], [message], [detail] as the message, else [Generation failed: ]
    followed by the status converted to a string; when that conversion
    throws, the handler throws and gives no reply.  While every poll is
    [Pending] the loop has not ended. *)
Theorem polling_ends_at_first_terminal
    (pollUrl apiKey : json) (pre : list response) (r : response)
    (result : json) (post : list fetched) :
  forallb pending pre = true ->
  Proxy.ok r = true ->
  json_body r = Some result ->
  result <> JNull ->
  is_string "Pending" (field "status" result) = false ->
  poll_loop pollUrl apiKey (map Resolved pre ++ Resolved r :: post)
  = (terminal_reply result, repeat (Poll pollUrl apiKey) (S (List.length pre)))
  /\ fst (poll_loop pollUrl apiKey (map Resolved pre)) = Awaiting.
Proof.
  intros Hpre Hok Hbody Hnull Hstatus. split.
  - apply poll_loop_skips_pending; [exact Hpre |].
    apply terminal_leaves; assumption.
  - rewrite (poll_loop_all_pending _ _ _ Hpre). reflexivity.
Qed.

Lemma polling_ends_at_first_terminal_witness :
  (poll_loop (JStr "https://x/poll/1") (JStr "test-key")
     (map Resolved [pending_poll; pending_poll]
      ++ Resolved (ok_json (JObj [("status", JStr "Ready");
                                  ("result", JObj [("sample", JStr "https://x/final.png")])]))
         :: [NetworkError])
   = (Replied 200 (JObj [("url", JStr "https://x/final.png")]),
      repeat (Poll (JStr "https://x/poll/1") (JStr "test-key")) 3)
   /\ fst (poll_loop (JStr "https://x/poll/1") (JStr "test-key")
             (map Resolved [pending_poll; pending_poll]))
      = Awaiting)
  /\ poll_loop (JStr "https://x/poll/1") (JStr "test-key")
       (map Resolved [pending_poll]
        ++ Resolved (ok_json (JObj [("status", JStr "ContentModerated")])) :: [])
     = (Replied 500 (JObj [("error", JStr "Generation failed: ContentModerated")]),
        repeat (Poll (JStr "https://x/poll/1") (JStr "test-key")) 2)
  /\ poll_loop (JStr "https://x/poll/1") (JStr "test-key")
       (map Resolved []
        ++ Resolved (ok_json (JObj [("status", JStr "Error");
                                    ("message", JStr "Out of credits")])) :: [])
     = (Replied 500 (JObj [("error", JStr "Out of credits")]),
        repeat (Poll (JStr "https://x/poll/1") (JStr "test-key")) 1)
  /\ poll_loop (JStr "https://x/poll/1") (JStr "test-key")
       (map Resolved []
        ++ Resolved (ok_json (JObj [("status", JNum 1000000000000000000000)])) :: [])
     = (Replied 500 (JObj [("error", JStr "Generation failed: 1e+21")]),
        repeat (Poll (JStr "https://x/poll/1") (JStr "test-key")) 1)
  /\ poll_loop (JStr "https://x/poll/1") (JStr "test-key")
       (map Resolved []
        ++ Resolved (ok_json (JObj [("status", JArr [JDec 15 (-1); JNull; JBool true])]))
           :: [])
     = (Replied 500 (JObj [("error", JStr "Generation failed: 1.5,,true")]),
        repeat (Poll (JStr "https://x/poll/1") (JStr "test-key")) 1)
  /\ poll_loop (JStr "https://x/poll/1") (JStr "test-key")
       (map Resolved []
        ++ Resolved (ok_json (JObj [("status", JObj [("toString", JNum 1)])])) :: [])
     = (Crashed EngineErr,
        repeat (Poll (JStr "https://x/poll/1") (JStr "test-key")) 1).
Proof.
  split; [| split; [| split; [| split; [| split]]]].
  - apply (polling_ends_at_first_terminal _ _ [pending_poll; pending_poll]
             (ok_json (JObj [("status", JStr "Ready");
                             ("result", JObj [("sample", JStr "https://x/final.png")])]))
             (JObj [("status", JStr "Ready");
                    ("result", JObj [("sample", JStr "https://x/final.png")])]));
      solve [reflexivity | discriminate].
  - refine (eq_trans
              (proj1 (polling_ends_at_first_terminal _ _ [pending_poll]
                        (ok_json (JObj [("status", JStr "ContentModerated")]))
                        (JObj [("status", JStr "ContentModerated")]) []
                        _ _ _ _ _)) _);
      solve [vm_compute; reflexivity | discriminate].
  - refine (eq_trans
              (proj1 (polling_ends_at_first_terminal _ _ []
                        (ok_json (JObj [("status", JStr "Error");
                                        ("message", JStr "Out of credits")]))
                        (JObj [("status", JStr "Error");
                               ("message", JStr "Out of credits")]) []
                        _ _ _ _ _)) _);
      solve [vm_compute; reflexivity | discriminate].
  - refine (eq_trans
              (proj1 (polling_ends_at_first_terminal _ _ []
                        (ok_json (JObj [("status", JNum 1000000000000000000000)]))
                        (JObj [("status", JNum 1000000000000000000000)]) []
                        _ _ _ _ _)) _);
      solve [vm_compute; reflexivity | discriminate].
  - refine (eq_trans
              (proj1 (polling_ends_at_first_terminal _ _ []
                        (ok_json (JObj [("status", JArr [JDec 15 (-1); JNull; JBool true])]))
                        (JObj [("status", JArr [JDec 15 (-1); JNull; JBool true])]) []
                        _ _ _ _ _)) _);
      solve [vm_compute; reflexivity | discriminate].
  - refine (eq_trans
              (proj1 (polling_ends_at_first_terminal _ _ []
                        (ok_json (JObj [("status", JObj [("toString", JNum 1)])]))
                        (JObj [("status", JObj [("toString", JNum 1)])]) []
                        _ _ _ _ _)) _);
      solve [vm_compute; reflexivity | discriminate].
Defined.

(** C1 as stated fails in three ways.  The synthesized message for the
    status [Failed] is [Generation failed: Failed], not [generation
    failed: Failed].  A sample or an explicit message that is present
    but empty does not count: [Ready] with the sample [""] is a failure,
    and an [error] of [""] gives way to the synthesized message.  And a
    status that cannot be converted to a string gives no failure reply:
    the handler throws. *)
Lemma terminal_reply_differs_from_claim :
  (fst (poll_loop (JStr "https://x/poll/1") (JStr "test-key")
          [Resolved (ok_json (JObj [("status", JStr "Failed")]))])
   = Replied 500 (JObj [("error", JStr "Generation failed: Failed")])
   /\ "Generation failed: Failed" <> "generation failed: Failed")
  /\ fst (poll_loop (JStr "https://x/poll/1") (JStr "test-key")
            [Resolved (ok_json (JObj [("status", JStr "Ready");
                                      ("result", JObj [("sample", JStr "")])]))])
     = Replied 500 (JObj [("error", JStr "Generation failed: Ready")])
  /\ fst (poll_loop (JStr "https://x/poll/1") (JStr "test-key")
            [Resolved (ok_json (JObj [("status", JStr "Failed"); ("error", JStr "")]))])
     = Replied 500 (JObj [("error", JStr "Generation failed: Failed")])
  /\ fst (poll_loop (JStr "https://x/poll/1") (JStr "test-key")
            [Resolved (ok_json (JObj [("status", JObj [("toString", JStr "x")])]))])
     = Crashed EngineErr.
Proof. repeat split; try (vm_compute; reflexivity). discriminate. Qed.





End ProxyProperties.

(* ================================================================== *)
(** ** Properties of the controller                                     *)
(* ================================================================== *)

Section ControllerProperties.

Variable toFixed1 : Z -> string.

Lemma fetches_app (l1 l2 : list effect) :
  fetches (l1 ++ l2) = (fetches l1 + fetches l2)%nat.
Proof.
  induction l1 as [| e l1 IH]; simpl; [reflexivity |].
  destruct e; simpl; rewrite IH; reflexivity.
Qed.

Lemma stops_app (l1 l2 : list effect) :
  stops (l1 ++ l2) = (stops l1 + stops l2)%nat.
Proof.
  induction l1 as [| e l1 IH]; simpl; [reflexivity |].
  destruct e; simpl; rewrite IH; reflexivity.
Qed.

Ltac handlers :=
  unfold step, handleKeyDown, handleGenerate, generateImage, fetchSettled,
    imageSettled, generated, preloaded, catch, finally, stopTimer,
    clearInterval, setInterval, tick, handleDragEnter, handleDragOver,
    handleDragLeave, handleDrop, fileRead, toggleEditMode,
    handleApiKeyChange, requestFrames in *.

Ltac cases :=
  repeat match goal with
         | _ => progress simpl
         | |- context [match ?x with _ => _ end] =>
             lazymatch x with
             | context [match _ with _ => _ end] => fail
             | _ => destruct x eqn:?
             end
         end.

(** The callbacks of one animation frame touch only [showCurrentImage],
    the frame queue and the log, to which they add frame requests. *)
Lemma animationFrame_frame (w : world) :
  session (animationFrame w) = session w /\ drag (animationFrame w) = drag w.
Proof.
  unfold animationFrame.
  assert (Hreset : session (setFrames [] w) = session w
                   /\ drag (setFrames [] w) = drag w) by (split; reflexivity).
  revert Hreset. generalize (setFrames [] w). generalize (frames w).
  induction l as [| cb l IH]; intros w0 [Hs Hd]; simpl; [split; assumption |].
  apply IH. rewrite <- Hs, <- Hd.
  destruct cb; unfold session, drag; simpl;
    rewrite ?fetches_app, ?stops_app; simpl; rewrite ?Nat.add_0_r;
    split; reflexivity.
Qed.


Lemma run_cons (w : world) (e : event) (es : list event) :
  run toFixed1 w (e :: es) = run toFixed1 (step toFixed1 w e) es.
Proof. reflexivity. Qed.

(** Events that are not drag events leave the drag state alone. *)
Lemma other_events_keep_drag (w : world) (e : event) :
  is_drag e = false -> drag (step toFixed1 w e) = drag w.
Proof.
  destruct e; try discriminate; intros _;
    try (apply animationFrame_frame);
    handlers; unfold drag; cases; reflexivity.
Qed.

Lemma drag_parts (w : world) (c : Z) (b : bool) :
  drag w = (c, b) -> dragCounterRef (ui w) = c /\ isDragOver (ui w) = b.
Proof.
  unfold drag. intros H. split; [exact (f_equal fst H) | exact (f_equal snd H)].
Qed.

Lemma drag_enter (w : world) :
  drag (step toFixed1 w DragEnter) = ((dragCounterRef (ui w) + 1)%Z, true).
Proof. reflexivity. Qed.

Lemma drag_leave (w : world) :
  drag (step toFixed1 w DragLeave)
  = ((dragCounterRef (ui w) - 1)%Z,
     if (dragCounterRef (ui w) - 1 =? 0)%Z then false else isDragOver (ui w)).
Proof.
  handlers. unfold drag. simpl.
  destruct (dragCounterRef (ui w) - 1 =? 0)%Z; reflexivity.
Qed.

Lemma drag_drop (w : world) (first : option file) :
  drag (step toFixed1 w (Drop first)) = (0%Z, false).
Proof. handlers. unfold drag. cases; reflexivity. Qed.

(** C9 (amended).  Drag-enter adds one to the counter and drag-leave takes
    one off; a drop sets the counter to zero and clears the drag-active
    flag whatever they were.  Over every sequence of events in which no
    drag-leave arrives while the counter is zero, started where the flag
    is up exactly when the counter is positive, the counter follows the
    nesting depth and the flag is up exactly when the counter is
    positive. *)
Theorem drag_state_tracks_nesting (w : world) (events : list event) (d : Z) :
  (0 <= dragCounterRef (ui w))%Z ->
  isDragOver (ui w) = (0 <? dragCounterRef (ui w))%Z ->
  nesting (dragCounterRef (ui w)) events = Some d ->
  (dragCounterRef (ui (run toFixed1 w events)) = d
   /\ (0 <= d)%Z
   /\ isDragOver (ui (run toFixed1 w events)) = (0 <? d)%Z)
  /\ (forall w0 first, drag (step toFixed1 w0 (Drop first)) = (0%Z, false))
  /\ (forall w0, dragCounterRef (ui (step toFixed1 w0 DragEnter))
                 = (dragCounterRef (ui w0) + 1)%Z)
  /\ (forall w0, dragCounterRef (ui (step toFixed1 w0 DragLeave))
                 = (dragCounterRef (ui w0) - 1)%Z).
Proof.
  intros Hpos Hflag Hnest. split; [| split; [| split]].
  - revert w Hpos Hflag Hnest.
    induction events as [| e events IH]; intros w Hpos Hflag Hnest.
    + simpl in Hnest. injection Hnest as <-. auto.
    + rewrite run_cons.
      destruct (is_drag e) eqn:He.
      * destruct e; try discriminate; simpl in Hnest.
        -- destruct (drag_parts _ _ _ (drag_enter w)) as [Hc Hf].
           apply IH; rewrite ?Hc, ?Hf.
           ++ lia.
           ++ symmetry. apply Z.ltb_lt. lia.
           ++ exact Hnest.
        -- destruct (0 <? dragCounterRef (ui w))%Z eqn:Hd; [| discriminate].
           apply Z.ltb_lt in Hd.
           destruct (drag_parts _ _ _ (drag_leave w)) as [Hc Hf].
           apply IH; rewrite ?Hc, ?Hf.
           ++ lia.
           ++ destruct (dragCounterRef (ui w) - 1 =? 0)%Z eqn:Hz.
              ** apply Z.eqb_eq in Hz. rewrite Hz. reflexivity.
              ** apply Z.eqb_neq in Hz. rewrite Hflag.
                 symmetry. apply Z.ltb_lt. lia.
           ++ exact Hnest.
        -- destruct (drag_parts _ _ _ (drag_drop w first)) as [Hc Hf].
           apply IH; rewrite ?Hc, ?Hf; [lia | reflexivity | exact Hnest].
      * destruct (drag_parts _ _ _ (other_events_keep_drag w e He)) as [Hc Hf].
        apply IH; rewrite ?Hc, ?Hf; try assumption.
        destruct e; try discriminate; exact Hnest.
  - intros w0 first. apply drag_drop.
  - intros w0. reflexivity.
  - intros w0. apply (drag_parts _ _ _ (drag_leave w0)).
Qed.

Lemma session_flag (w w' : world) :
  session w' = session w -> isGenerating (ui w') = isGenerating (ui w).
Proof.
  intros H. exact (f_equal (fun t => fst (fst (fst (fst (fst (fst t)))))) H).
Qed.

Lemma session_running (w w' : world) :
  session w' = session w -> running w' = running w.
Proof.
  intros H. exact (f_equal (fun t => snd (fst (fst (fst (fst (fst t)))))) H).
Qed.

Lemma session_fetches (w w' : world) :
  session w' = session w -> fetches (log w') = fetches (log w).
Proof. intros H. exact (f_equal (fun t => snd (fst t)) H). Qed.


(** Events other than a key press and the settling of the attempt change
    nothing an attempt depends on. *)
Lemma bystander_session (w : world) (e : event) :
  quiet e = true ->
  is_key e = false ->
  session (step toFixed1 w e) = session w.
Proof.
  intros Hquiet Hkey.
  destruct e; try discriminate;
    try (apply animationFrame_frame).
  all: handlers; unfold session;
    cases; simpl; rewrite ?fetches_app, ?stops_app; simpl;
    rewrite ?Nat.add_0_r; reflexivity.
Qed.

(** While an attempt is in flight, an event other than the settling of
    its [fetch] or of its preload changes nothing the attempt depends on,
    calls neither the proxy nor [clearInterval], and starts no attempt. *)
Lemma quiet_step_session (w : world) (e : event) :
  isGenerating (ui w) = true ->
  quiet e = true ->
  session (step toFixed1 w e) = session w.
Proof.
  intros Hflag Hquiet.
  destruct (is_key e) eqn:Hkey; [| apply bystander_session; assumption].
  destruct e; try discriminate.
  unfold step, handleKeyDown, handleGenerate.
  rewrite Hflag, orb_true_r. destruct (key =? "Enter"); reflexivity.
Qed.

Lemma quiet_run_session (events : list event) (w : world) :
  isGenerating (ui w) = true ->
  forallb quiet events = true ->
  session (run toFixed1 w events) = session w.
Proof.
  revert w. induction events as [| e events IH]; intros w Hflag Hquiet;
    [reflexivity |].
  simpl in Hquiet. apply andb_true_iff in Hquiet as [He Hes].
  rewrite run_cons.
  pose proof (quiet_step_session w e Hflag He) as Hstep.
  rewrite IH; [exact Hstep | | exact Hes].
  rewrite (session_flag _ _ Hstep). exact Hflag.
Qed.

(** A trigger on an idle controller with a prompt and a credential
    starts an attempt: one call to the proxy, the timer set, the flag up. *)
Lemma accepted_trigger (w : world) (now later : Z) :
  isGenerating (ui w) = false ->
  trim (prompt (ui w)) <> "" ->
  apiKey (ui w) <> "" ->
  url_or_null (currentImageUrl (ui w)) = true ->
  let w1 := handleGenerate toFixed1 now later w in
  isGenerating (ui w1) = true
  /\ running w1 = Some {| startTime := now;
                          closedCurrent := currentImageUrl (ui w);
                          awaiting := AwaitFetch |}
  /\ timerIntervalRef (ui w1) = Some (fresh w)
  /\ intervals w1 = (intervals w ++ [(fresh w, now)])%list
  /\ fetches (log w1) = S (fetches (log w))
  /\ stops (log w1) = stops (log w).
Proof.
  intros Hidle Hprompt Hkey Hurl.
  apply String.eqb_neq in Hprompt. apply String.eqb_neq in Hkey.
  handlers. rewrite Hprompt, Hidle. simpl. rewrite Hkey.
  destruct (currentImageUrl (ui w)) eqn:Hcur; try discriminate; simpl.
  - rewrite andb_false_r. simpl.
    rewrite !fetches_app, !stops_app. simpl. rewrite !Nat.add_0_r.
    repeat split; try reflexivity. apply Nat.add_1_r.
  - cases; simpl; rewrite !fetches_app, !stops_app; simpl;
      rewrite ?Nat.add_0_r; repeat split; try reflexivity; apply Nat.add_1_r.
Qed.

Lemma trim_start_blank (l : list (N * string)) :
  forallb (fun c => is_space (fst c)) l = true -> trim_start l = [].
Proof.
  induction l as [| c rest IH]; [reflexivity |].
  simpl. intros H. apply andb_true_iff in H as [Hc Hrest].
  rewrite Hc. exact (IH Hrest).
Qed.

(** A prompt of white space only is empty once trimmed. *)
Lemma blank_trims_to_nothing (s : string) : blank s = true -> trim s = "".
Proof.
  unfold blank, trim. intros H. rewrite (trim_start_blank _ H). reflexivity.
Qed.

(** C3.  A trigger while an attempt is in flight, or with a prompt that is
    empty after trimming, changes nothing and calls nothing; so does, in
    particular, a trigger with a prompt that holds white space only, of
    whatever kind [String.prototype.trim] strips.  From an idle
    controller with a prompt and a credential, a trigger followed by any
    events other than the settling of the attempt (further triggers among
    them: three triggers in succession are one case) makes exactly one
    call to the proxy, and the attempt is still in flight. *)
Theorem trigger_guard (w : world) (now later : Z) :
  (isGenerating (ui w) = true \/ trim (prompt (ui w)) = "" ->
   handleGenerate toFixed1 now later w = w)
  /\ (blank (prompt (ui w)) = true ->
      handleGenerate toFixed1 now later w = w)
  /\ (isGenerating (ui w) = false ->
      trim (prompt (ui w)) <> "" ->
      apiKey (ui w) <> "" ->
      url_or_null (currentImageUrl (ui w)) = true ->
      forall events,
        forallb quiet events = true ->
        let w' := run toFixed1 w (KeyDown "Enter" now later :: events) in
        fetches (log w') = S (fetches (log w))
        /\ isGenerating (ui w') = true).
Proof.
  assert (Hguard : isGenerating (ui w) = true \/ trim (prompt (ui w)) = "" ->
                   handleGenerate toFixed1 now later w = w).
  { intros [Hflag | Hprompt]; unfold handleGenerate.
    - rewrite Hflag, orb_true_r. reflexivity.
    - rewrite Hprompt. reflexivity. }
  split; [exact Hguard | split].
  - intros Hblank. apply Hguard. right. apply blank_trims_to_nothing, Hblank.
  - intros Hidle Hprompt Hkey Hurl events Hquiet w'.
    destruct (accepted_trigger w now later Hidle Hprompt Hkey Hurl)
      as (Hflag & _ & _ & _ & Hfetch & _).
    subst w'. rewrite run_cons.
    change (step toFixed1 w (KeyDown "Enter" now later))
      with (handleGenerate toFixed1 now later w).
    pose proof (quiet_run_session events _ Hflag Hquiet) as Hsame.
    rewrite (session_fetches _ _ Hsame), (session_flag _ _ Hsame).
    split; assumption.
Qed.

(** C6 (the code departs from the claim).  A trigger on an idle controller
    with a prompt and no credential shows the warning and makes no call to
    the proxy, as claimed.  But the credential is only tested inside
    [generateImage], after the handler has raised the flag, shown the
    loading overlay, started the readout and set the timer; and when
    [generateImage] returns [null] the handler clears the timer, writes
    the elapsed time to the readout, marks the overlay complete and lowers
    the flag, without taking the overlay down or emptying the readout as
    the [catch] block does.  So the state is changed and the readout is
    started, where the claim has neither. *)
Theorem keyless_trigger (w : world) (now later : Z) :
  isGenerating (ui w) = false ->
  trim (prompt (ui w)) <> "" ->
  apiKey (ui w) = "" ->
  let w' := handleGenerate toFixed1 now later w in
  log w' = (log w ++ [SetInterval (fresh w);
                      Alert (Text "Please enter your BFL API key");
                      ClearInterval (fresh w)])%list
  /\ fetches (log w') = fetches (log w)
  /\ timerIntervalRef (ui w') = Some (fresh w)
  /\ genTime (ui w') = toFixed1 (later - now) ++ "s"
  /\ showLoading (ui w') = true
  /\ loadingComplete (ui w') = true
  /\ isGenerating (ui w') = false
  /\ running w' = None.
Proof.
  intros Hidle Hprompt Hkey.
  apply String.eqb_neq in Hprompt.
  handlers. rewrite Hprompt, Hidle. simpl. rewrite Hkey. simpl.
  repeat split.
  - rewrite <- !app_assoc. reflexivity.
  - rewrite !fetches_app. simpl. rewrite !Nat.add_0_r. reflexivity.
Qed.




Lemma consistent_mount (savedKey : option string) : consistent (mount savedKey).
Proof. split; reflexivity. Qed.

Lemma filter_own_interval (h : positive) (t : Z) :
  filter (fun p : positive * Z => negb (Pos.eqb (fst p) h)) [(h, t)] = [].
Proof. simpl. rewrite Pos.eqb_refl. reflexivity. Qed.

(** Every handler keeps the timer and the running attempt in agreement. *)
Lemma consistent_step (w : world) (e : event) :
  consistent w -> consistent (step toFixed1 w e).
Proof.
  unfold consistent. intros H.
  destruct (running w) as [a |] eqn:Hrun.
  - destruct H as (Hflag & h & Href & Hint).
    destruct (quiet e) eqn:Hquiet.
    + pose proof (quiet_step_session w e Hflag Hquiet) as Hs.
      injection Hs as Hf Hr Ht Hi _ _ _.
      rewrite Hr, Hrun, Hf, Ht, Hi. eauto.
    + destruct e; try discriminate; handlers; rewrite Hrun.
      * destruct (awaiting a) eqn:Hst; [| rewrite Hrun, Hst; eauto].
        rewrite Href, Hint.
        destruct (generateImage_resume f) as [imageUrl | err]; simpl;
          rewrite Pos.eqb_refl; simpl.
        -- destruct (truthy imageUrl); simpl; eauto.
        -- auto.
      * destruct (awaiting a) eqn:Hst; [rewrite Hrun, Hst; eauto |].
        destruct loaded; simpl; rewrite ?Href, ?Hint; simpl;
          [destruct (truthy_json (closedCurrent a)) |]; simpl; auto.
  - destruct H as [Hflag Hint].
    destruct (quiet e) eqn:Hquiet; [destruct (is_key e) eqn:Hkey |].
    + destruct e; try discriminate.
      unfold step, handleKeyDown.
      destruct (key =? "Enter"); [| rewrite Hrun; auto].
      handlers. rewrite Hflag, orb_false_r.
      destruct (trim (prompt (ui w)) =? ""); [rewrite Hrun; auto |].
      simpl. rewrite Hint.
      cases; simpl; rewrite ?Pos.eqb_refl; simpl; eauto;
        match goal with
        | H : context [Pos.eqb ?x ?x] |- _ =>
            rewrite Pos.eqb_refl in H; discriminate
        end.
    + pose proof (bystander_session w e Hquiet Hkey) as Hs.
      injection Hs as Hf Hr _ Hi _ _ _.
      rewrite Hr, Hrun, Hf, Hi. auto.
    + destruct e; try discriminate; handlers; rewrite Hrun, Hrun; auto.
Qed.

Lemma consistent_run (events : list event) (w : world) :
  consistent w -> consistent (run toFixed1 w events).
Proof.
  revert w. induction events as [| e events IH]; intros w H; [exact H |].
  rewrite run_cons. apply IH, consistent_step, H.
Qed.


End ControllerProperties.

(* ================================================================== *)
(** ** The properties on concrete runs                                  *)
(* ================================================================== *)

Lemma trigger_guard_witness :
  (fetches (log (run tenths ready_world
                   [KeyDown "Enter" 1000 1000; KeyDown "Enter" 1100 1100;
                    KeyDown "Enter" 1200 1200]))
   = S (fetches (log ready_world))
   /\ isGenerating (ui (run tenths ready_world
                          [KeyDown "Enter" 1000 1000; KeyDown "Enter" 1100 1100;
                           KeyDown "Enter" 1200 1200])) = true)
  /\ handleGenerate tenths 1000 1000 (mount (Some "test-key"))
     = mount (Some "test-key")
  /\ handleGenerate tenths 1000 1000
       (step tenths (mount (Some "test-key")) (PromptChange white_prompt))
     = step tenths (mount (Some "test-key")) (PromptChange white_prompt)
  /\ handleGenerate tenths 1000 1000
       (step tenths (mount (Some "test-key")) (PromptChange (byte_string 160)))
     = step tenths (mount (Some "test-key")) (PromptChange (byte_string 160)).
Proof.
  split; [| split; [| split]].
  - apply (proj2 (proj2 (trigger_guard tenths ready_world 1000 1000)));
      solve [vm_compute; reflexivity | vm_compute; discriminate].
  - apply (proj1 (trigger_guard tenths (mount (Some "test-key")) 1000 1000)).
    right. reflexivity.
  - apply (proj1 (proj2 (trigger_guard tenths
                           (step tenths (mount (Some "test-key"))
                              (PromptChange white_prompt)) 1000 1000))).
    vm_compute. reflexivity.
  - apply (proj1 (trigger_guard tenths
                    (step tenths (mount (Some "test-key"))
                       (PromptChange (byte_string 160))) 1000 1000)).
    right. vm_compute. reflexivity.
Defined.

Lemma keyless_trigger_witness :
  let w' := handleGenerate tenths 1000 3200 keyless_world in
  log w' = (log keyless_world
              ++ [SetInterval 1%positive;
                  Alert (Text "Please enter your BFL API key");
                  ClearInterval 1%positive])%list
  /\ fetches (log w') = fetches (log keyless_world)
  /\ timerIntervalRef (ui w') = Some 1%positive
  /\ genTime (ui w') = tenths (3200 - 1000) ++ "s"
  /\ showLoading (ui w') = true
  /\ loadingComplete (ui w') = true
  /\ isGenerating (ui w') = false
  /\ running w' = None.
Proof.
  apply (keyless_trigger tenths keyless_world 1000 3200);
    solve [reflexivity | discriminate].
Defined.




Lemma drag_state_tracks_nesting_witness :
  (dragCounterRef (ui (run tenths (mount None)
                         [DragEnter; DragEnter; DragOver; DragLeave;
                          Drop None; DragEnter])) = 1
   /\ (0 <= 1)%Z
   /\ isDragOver (ui (run tenths (mount None)
                         [DragEnter; DragEnter; DragOver; DragLeave;
                          Drop None; DragEnter])) = (0 <? 1)%Z)
  /\ (forall w0 first, drag (step tenths w0 (Drop first)) = (0%Z, false))
  /\ (forall w0, dragCounterRef (ui (step tenths w0 DragEnter))
                 = (dragCounterRef (ui w0) + 1)%Z)
  /\ (forall w0, dragCounterRef (ui (step tenths w0 DragLeave))
                 = (dragCounterRef (ui w0) - 1)%Z).
Proof.
  apply (drag_state_tracks_nesting tenths (mount None)
           [DragEnter; DragEnter; DragOver; DragLeave; Drop None; DragEnter] 1);
    solve [reflexivity | simpl; lia].
Defined.

(** C9 as stated fails: a drag-leave that no drag-enter preceded, then a
    drag-enter, leave the drag-active flag up with the counter at zero. *)
Lemma unmatched_leave_breaks_drag_state :
  let w := run tenths (mount None) [DragLeave; DragEnter] in
  isDragOver (ui w) = true /\ dragCounterRef (ui w) = 0.
Proof. split; reflexivity. Qed.

(* ================================================================== *)
(** ** Further properties of the proxy                                  *)
(* ================================================================== *)

Section ProxyTrace.

Lemma polls_hold_no_submit (polls : list call) (c : call) :
  forallb is_poll polls = true -> In c polls -> is_poll c = true.
Proof.
  intros Hall Hin. rewrite forallb_forall in Hall. apply Hall, Hin.
Qed.

(** What the route does with a request that passes validation, by the
    reference image it carries. *)
Lemma POST_accepted (req : json) (net : list fetched) :
  truthy (field "prompt" req) = true ->
  truthy (field "apiKey" req) = true ->
  POST (Some req) net
  = if truthy (field "image" req) then
      submit (endpoint_of req) (defined (field "apiKey" req))
        (JObj (base_payload req ++ [("input_image", defined (field "image" req))])) net
    else if truthy (field "imageUrl" req) then
      after (FetchImage (defined (field "imageUrl" req)))
        match net with
        | [] => (Awaiting, [])
        | NetworkError :: _ => (Crashed EngineErr, [])
        | Resolved res :: net' =>
            match urlToBase64 res with
            | Throw e => (Crashed e, [])
            | Normal b64 =>
                submit (endpoint_of req) (defined (field "apiKey" req))
                  (JObj (base_payload req ++ [("input_image", JStr b64)])) net'
            end
        end
    else submit (endpoint_of req) (defined (field "apiKey" req))
           (JObj (base_payload req)) net.
Proof.
  intros Hprompt Hkey.
  destruct (truthy_field_object _ _ Hprompt) as [fields ->].
  unfold POST. rewrite Hprompt, Hkey. reflexivity.
Qed.

Lemma POST_refused (req : json) (net : list fetched) :
  truthy (field "prompt" req) && truthy (field "apiKey" req) = false ->
  snd (POST (Some req) net) = [].
Proof.
  intros H. destruct req; try reflexivity; unfold POST;
    destruct (truthy (field "prompt" _)); simpl in *;
    try rewrite H; reflexivity.
Qed.

(** The calls of the route, in order: at most one fetch of the source
    image, then at most one submission, then polls. *)
Lemma POST_trace (req : json) (net : list fetched) :
  exists images submissions polls,
    snd (POST (Some req) net) = (images ++ submissions ++ polls)%list
    /\ (images = [] \/ images = [FetchImage (defined (field "imageUrl" req))])
    /\ (submissions = []
        \/ exists extra,
             submissions
             = [Submit (endpoint_of req) (defined (field "apiKey" req))
                  (JObj (base_payload req ++ extra)%list)]
             /\ (extra = []
                 /\ truthy (field "image" req) = false
                 /\ truthy (field "imageUrl" req) = false
                 \/ exists v, extra = [("input_image", v)]))
    /\ forallb is_poll polls = true.
Proof.
  destruct (truthy (field "prompt" req) && truthy (field "apiKey" req)) eqn:Hvalid.
  - apply andb_true_iff in Hvalid as [Hprompt Hkey].
    rewrite (POST_accepted req net Hprompt Hkey).
    destruct (truthy (field "image" req)) eqn:Himage;
      [| destruct (truthy (field "imageUrl" req)) eqn:Hurl].
    + match goal with
      | |- context [submit ?u ?k (JObj (?base ++ ?extra)) ?n] =>
          destruct (submit_calls u k (JObj (base ++ extra)) n)
            as [polls [Hcalls Hpolls]];
          exists [], [Submit u k (JObj (base ++ extra))], polls
      end.
      rewrite Hcalls. split; [reflexivity |].
      split; [left; reflexivity |].
      split; [| exact Hpolls].
      right. eexists. split; [reflexivity |]. right. eexists. reflexivity.
    + unfold after. cbn [snd].
      destruct net as [| [| res] net']; cbn [snd];
        try (exists [FetchImage (defined (field "imageUrl" req))], [], [];
             repeat split; auto; fail).
      destruct (urlToBase64 res) as [b64 | e]; cbn [snd];
        [| exists [FetchImage (defined (field "imageUrl" req))], [], [];
           repeat split; auto].
      match goal with
      | |- context [submit ?u ?k (JObj (?base ++ ?extra)) ?n] =>
          destruct (submit_calls u k (JObj (base ++ extra)) n)
            as [polls [Hcalls Hpolls]];
          exists [FetchImage (defined (field "imageUrl" req))],
            [Submit u k (JObj (base ++ extra))], polls
      end.
      rewrite Hcalls. split; [reflexivity |].
      split; [right; reflexivity |].
      split; [| exact Hpolls].
      right. eexists. split; [reflexivity |]. right. eexists. reflexivity.
    + destruct (submit_calls (endpoint_of req) (defined (field "apiKey" req))
                  (JObj (base_payload req)) net) as [polls [Hcalls Hpolls]].
      exists [], [Submit (endpoint_of req) (defined (field "apiKey" req))
                    (JObj (base_payload req ++ []))], polls.
      rewrite Hcalls, app_nil_r. split; [reflexivity |].
      split; [left; reflexivity |].
      split; [| exact Hpolls].
      right. exists []. rewrite app_nil_r. split; [reflexivity |].
      left. auto.
  - rewrite (POST_refused req net Hvalid). exists [], [], [].
    repeat split; auto.
Qed.

Lemma poll_loop_calls (pollUrl apiKey : json) (net : list fetched) :
  exists n, snd (poll_loop pollUrl apiKey net) = repeat (Poll pollUrl apiKey) n.
Proof.
  induction net as [| f net [n IH]]; [exists 1%nat; reflexivity |].
  destruct f as [| pollRes]; [exists 1%nat; reflexivity |].
  simpl. destruct (poll_step pollRes); [exists 1%nat; reflexivity |].
  exists (S n). simpl. rewrite IH. reflexivity.
Qed.

Lemma paced_after (c : call) (r : outcome * list call) (f : fetched) (net : list fetched) :
  paced r net -> paced (after c r) (f :: net).
Proof.
  unfold paced, after. destruct r as [o calls]. simpl.
  destruct o; simpl; lia.
Qed.

Lemma paced_done (c : call) (o : outcome) (f : fetched) (net : list fetched) :
  o <> Awaiting -> paced (after c (o, [])) (f :: net).
Proof.
  unfold paced, after. simpl. destruct o; simpl; try lia. congruence.
Qed.

Lemma respond_cases (st : Z) (body : json) :
  respond st body = Replied st body \/ respond st body = Crashed EngineErr.
Proof. unfold respond. destruct (_ || _); [right | left]; reflexivity. Qed.

Lemma error_reply_ends (label : string) (res : response) :
  error_reply label res <> Awaiting.
Proof.
  unfold error_reply. destruct (error_message _ res) as [m | e]; [| discriminate].
  destruct (respond_cases (Proxy.status res) (JObj [("error", m)])) as [-> | ->];
    discriminate.
Qed.

Lemma poll_step_ends (pollRes : response) (o : outcome) :
  poll_step pollRes = Leave o -> o <> Awaiting.
Proof.
  unfold poll_step. pose proof (error_reply_ends "Poll error" pollRes).
  destruct (negb (Proxy.ok pollRes)); [intros [= <-]; assumption |].
  destruct (json_body pollRes) as [result |]; [| intros [= <-]; discriminate].
  destruct (get "status" result) as [st | e]; [| intros [= <-]; discriminate].
  destruct (is_string "Ready" st && _); [intros [= <-]; discriminate |].
  destruct (is_string "Pending" st); [discriminate |].
  destruct (failure_message result st); intros [= <-]; discriminate.
Qed.

Lemma poll_loop_paced (pollUrl apiKey : json) (net : list fetched) :
  paced (poll_loop pollUrl apiKey net) net.
Proof.
  induction net as [| f net IH]; [reflexivity |].
  simpl. destruct f as [| pollRes].
  - apply paced_done. discriminate.
  - destruct (poll_step pollRes) eqn:Hstep.
    + apply paced_done. eapply poll_step_ends, Hstep.
    + apply paced_after, IH.
Qed.

Lemma submit_paced (apiUrl : string) (apiKey body : json) (net : list fetched) :
  paced (submit apiUrl apiKey body net) net.
Proof.
  unfold submit. destruct net as [| f net]; [reflexivity |].
  destruct f as [| submitRes]; [apply paced_done; discriminate |].
  destruct (negb (Proxy.ok submitRes));
    [apply paced_done, error_reply_ends |].
  destruct (json_body submitRes) as [submitData |];
    [| apply paced_done; discriminate].
  destruct (get "sample" submitData) as [sample | e];
    [| apply paced_done; discriminate].
  destruct (truthy sample); [apply paced_done; discriminate |].
  destruct (field "polling_url" submitData) as [pollUrl |];
    [| apply paced_done; discriminate].
  destruct (truthy_json pollUrl); [| apply paced_done; discriminate].
  apply paced_after, poll_loop_paced.
Qed.

(** X1.  Whatever the request and whatever the network answers, the route
    submits at most once (it never retries), and a submission goes to the
    4B endpoint exactly when [variant] is the string [4b], to the 9B
    endpoint otherwise. *)
Theorem submission_is_single_and_targeted (req : json) (net : list fetched) :
  filter is_submit (snd (POST (Some req) net)) = []
  \/ exists url key body,
       filter is_submit (snd (POST (Some req) net)) = [Submit url key body]
       /\ (field "variant" req = Some (JStr "4b") -> url = BFL_API_4B)
       /\ (field "variant" req <> Some (JStr "4b") -> url = BFL_API_9B).
Proof.
  destruct (POST_trace req net)
    as (images & submissions & polls & Hcalls & Himages & Hsub & Hpolls).
  rewrite Hcalls.
  assert (Hnone : forall l, forallb is_poll l = true -> filter is_submit l = []).
  { induction l as [| c l IH]; [reflexivity |]. simpl. intros H.
    apply andb_true_iff in H as [Hc Hl]. destruct c; try discriminate.
    simpl. apply IH, Hl. }
  rewrite !filter_app, (Hnone polls Hpolls), app_nil_r.
  assert (Himg : filter is_submit images = [])
    by (destruct Himages as [-> | ->]; reflexivity).
  rewrite Himg. simpl.
  destruct Hsub as [-> | (extra & -> & _)]; [left; reflexivity | right].
  do 3 eexists. split; [reflexivity |].
  unfold endpoint_of. split.
  - intros ->. reflexivity.
  - intros Hvariant.
    destruct (field "variant" req) as [[| | | v | | |] |]; try reflexivity.
    simpl. destruct (v =? "4b") eqn:Hv; [| reflexivity].
    apply String.eqb_eq in Hv. subst v. congruence.
Qed.

(** X2.  Every submission carries the request's prompt, the fixed size
    768 by 768 and upsampling off; the credential goes in the [X-Key]
    header and is no field of the payload; and a request with neither an
    inline image nor a source URL is submitted without [input_image]. *)
Theorem payload_is_fixed_and_keyless
    (req : json) (net : list fetched) (url : string) (key body : json) :
  In (Submit url key body) (snd (POST (Some req) net)) ->
  field "apiKey" req = Some key
  /\ field "prompt" body = field "prompt" req
  /\ field "width" body = Some (JNum 768)
  /\ field "height" body = Some (JNum 768)
  /\ field "prompt_upsampling" body = Some (JBool false)
  /\ field "apiKey" body = None
  /\ (truthy (field "image" req) = false ->
      truthy (field "imageUrl" req) = false ->
      field "input_image" body = None).
Proof.
  intros Hin.
  destruct (truthy (field "prompt" req) && truthy (field "apiKey" req)) eqn:Hvalid;
    [| rewrite (POST_refused req net Hvalid) in Hin; contradiction].
  apply andb_true_iff in Hvalid as [Hprompt Hkey].
  destruct (POST_trace req net)
    as (images & submissions & polls & Hcalls & Himages & Hsub & Hpolls).
  rewrite Hcalls in Hin.
  apply in_app_or in Hin as [Hin | Hin];
    [destruct Himages as [-> | ->]; simpl in Hin; intuition discriminate |].
  apply in_app_or in Hin as [Hin | Hin];
    [| apply (polls_hold_no_submit _ _ Hpolls) in Hin; discriminate].
  destruct Hsub as [-> | (extra & -> & Hextra)]; [contradiction |].
  destruct Hin as [[= <- <- <-] | []].
  split; [apply truthy_defined, Hkey |].
  split; [symmetry; apply truthy_defined, Hprompt |].
  repeat split.
  - destruct Hextra as [(-> & _) | [v ->]]; reflexivity.
  - intros Himage Hurl.
    destruct Hextra as [(-> & _) | [v ->]]; [reflexivity |].
    exfalso.
    rewrite (POST_accepted req net Hprompt Hkey), Himage, Hurl in Hcalls.
    destruct (submit_calls (endpoint_of req) (defined (field "apiKey" req))
                (JObj (base_payload req)) net) as [polls' [Hcalls' _]].
    rewrite Hcalls' in Hcalls.
    destruct Himages as [-> | ->]; simpl in Hcalls; [| discriminate].
    injection Hcalls as Hbody _.
    apply (f_equal (@List.length _)) in Hbody. simpl in Hbody. lia.
Qed.

Lemma payload_is_fixed_and_keyless_witness :
  field "apiKey" cat_request = Some (JStr "test-key")
  /\ field "prompt" (JObj (base_payload cat_request)) = field "prompt" cat_request
  /\ field "width" (JObj (base_payload cat_request)) = Some (JNum 768)
  /\ field "height" (JObj (base_payload cat_request)) = Some (JNum 768)
  /\ field "prompt_upsampling" (JObj (base_payload cat_request)) = Some (JBool false)
  /\ field "apiKey" (JObj (base_payload cat_request)) = None
  /\ (truthy (field "image" cat_request) = false ->
      truthy (field "imageUrl" cat_request) = false ->
      field "input_image" (JObj (base_payload cat_request)) = None).
Proof.
  apply (payload_is_fixed_and_keyless cat_request [] BFL_API_9B).
  left. reflexivity.
Defined.

(** X3.  The route paces its calls by the responses: each call waits for
    the response to the one before, so a handler that has replied or
    thrown has issued no more calls than responses were given, and one
    that is still waiting has issued exactly one more than were given. *)
Theorem calls_are_paced (request : option json) (net : list fetched) :
  paced (POST request net) net.
Proof.
  destruct request as [req |]; [| unfold paced; simpl; lia].
  destruct (truthy (field "prompt" req) && truthy (field "apiKey" req)) eqn:Hvalid.
  - apply andb_true_iff in Hvalid as [Hprompt Hkey].
    rewrite (POST_accepted req net Hprompt Hkey).
    destruct (truthy (field "image" req)); [apply submit_paced |].
    destruct (truthy (field "imageUrl" req)); [| apply submit_paced].
    destruct net as [| [| res] net']; [reflexivity | apply paced_done; discriminate |].
    destruct (urlToBase64 res); [| apply paced_done; discriminate].
    apply paced_after, submit_paced.
  - pose proof (POST_refused req net Hvalid) as Hcalls.
    unfold paced. rewrite Hcalls.
    destruct req; unfold POST; simpl; try lia;
      destruct (negb (truthy _) || negb (truthy _)) eqn:Hguard; simpl; try lia;
      apply orb_false_iff in Hguard as [H1 H2];
      apply negb_false_iff in H1, H2; simpl in Hvalid;
      rewrite H1, H2 in Hvalid; discriminate.
Qed.

(** X4.  A request with a source URL and no inline image: the URL is
    fetched once, before anything else, whatever status that fetch comes
    back with; the submission follows with [input_image] the base64
    encoding of the bytes received; every later call is a poll. *)
Theorem source_url_is_fetched_once
    (req : json) (res : response) (bytes : list Byte.byte) (net : list fetched) :
  truthy (field "prompt" req) = true ->
  truthy (field "apiKey" req) = true ->
  truthy (field "image" req) = false ->
  truthy (field "imageUrl" req) = true ->
  array_buffer res = Some bytes ->
  exists body polls,
    snd (POST (Some req) (Resolved res :: net))
    = FetchImage (defined (field "imageUrl" req))
        :: Submit (endpoint_of req) (defined (field "apiKey" req)) body :: polls
    /\ field "input_image" body = Some (JStr (btoa (string_of_list_byte bytes)))
    /\ forallb is_poll polls = true
    /\ fst (POST (Some req) (Resolved res :: net))
       = fst (submit (endpoint_of req) (defined (field "apiKey" req)) body net).
Proof.
  intros Hprompt Hkey Himage Hurl Hbytes.
  rewrite (POST_accepted req _ Hprompt Hkey), Himage, Hurl.
  unfold urlToBase64. rewrite Hbytes.
  match goal with
  | |- context [submit ?u ?k ?b net] =>
      destruct (submit_calls u k b net) as [polls [Hcalls Hpolls]];
      exists b, polls
  end.
  unfold after. cbn [fst snd]. rewrite Hcalls. repeat split. exact Hpolls.
Qed.

Lemma source_url_is_fetched_once_witness :
  exists body polls,
    snd (POST (Some url_image_request) (Resolved png_response :: []))
    = FetchImage (JStr "https://example.com/source.png")
        :: Submit BFL_API_9B (JStr "test-key") body :: polls
    /\ field "input_image" body = Some (JStr "iVBORw==")
    /\ forallb is_poll polls = true
    /\ fst (POST (Some url_image_request) (Resolved png_response :: []))
       = fst (submit BFL_API_9B (JStr "test-key") body []).
Proof.
  apply (source_url_is_fetched_once url_image_request png_response
           [Byte.x89; Byte.x50; Byte.x4e; Byte.x47] []);
    reflexivity.
Defined.

(** X5.  When the submission succeeds with a truthy [sample], the reply is
    status 200 with that sample as [url], and the submission is the only
    call: no poll is issued, whatever else the network would answer. *)
Theorem direct_sample_skips_polling
    (apiUrl : string) (apiKey body : json) (submitRes : response)
    (submitData : json) (net : list fetched) :
  Proxy.ok submitRes = true ->
  json_body submitRes = Some submitData ->
  truthy (field "sample" submitData) = true ->
  submit apiUrl apiKey body (Resolved submitRes :: net)
  = (Replied 200 (JObj [("url", defined (field "sample" submitData))]),
     [Submit apiUrl apiKey body]).
Proof.
  intros Hok Hbody Hsample.
  destruct (truthy_field_object _ _ Hsample) as [fields ->].
  unfold submit. rewrite Hok, Hbody. cbn [negb get].
  change (assoc "sample" fields) with (field "sample" (JObj fields)).
  rewrite Hsample. reflexivity.
Qed.

Lemma direct_sample_skips_polling_witness :
  submit BFL_API_9B (JStr "test-key") (JObj (base_payload cat_request))
    [Resolved (ok_json (JObj [("sample", JStr "https://x/img.png")])); NetworkError]
  = (Replied 200 (JObj [("url", JStr "https://x/img.png")]),
     [Submit BFL_API_9B (JStr "test-key") (JObj (base_payload cat_request))]).
Proof.
  apply (direct_sample_skips_polling _ _ _
           (ok_json (JObj [("sample", JStr "https://x/img.png")]))
           (JObj [("sample", JStr "https://x/img.png")]));
    reflexivity.
Defined.

(** X6.  Every poll goes to the [polling_url] of the submission response,
    with the credential of the submission in its header. *)
Theorem polls_reuse_handle_and_key
    (apiUrl : string) (apiKey body : json) (submitRes : response)
    (net : list fetched) (pollUrl key : json) :
  In (Poll pollUrl key) (snd (submit apiUrl apiKey body (Resolved submitRes :: net))) ->
  key = apiKey
  /\ exists submitData,
       json_body submitRes = Some submitData
       /\ field "polling_url" submitData = Some pollUrl.
Proof.
  unfold submit, after. cbn [snd].
  intros [Hin | Hin]; [discriminate |].
  destruct (negb (Proxy.ok submitRes)); [contradiction |].
  destruct (json_body submitRes) as [submitData |]; [| contradiction].
  destruct (get "sample" submitData) as [sample | e] eqn:Hget; [| contradiction].
  destruct (truthy sample); [contradiction |].
  destruct (field "polling_url" submitData) as [u |] eqn:Hpoll; [| contradiction].
  destruct (truthy_json u); [| contradiction].
  destruct (poll_loop_calls u apiKey net) as [n Hcalls].
  cbn [snd] in Hin. rewrite Hcalls in Hin.
  apply repeat_spec in Hin. injection Hin as -> ->.
  split; [reflexivity |]. exists submitData. auto.
Qed.

Lemma polls_reuse_handle_and_key_witness :
  JStr "test-key" = JStr "test-key"
  /\ exists submitData,
       json_body (ok_json (JObj [("polling_url", JStr "https://x/poll/1")]))
       = Some submitData
       /\ field "polling_url" submitData = Some (JStr "https://x/poll/1").
Proof.
  apply (polls_reuse_handle_and_key BFL_API_9B (JStr "test-key")
           (JObj (base_payload cat_request))
           (ok_json (JObj [("polling_url", JStr "https://x/poll/1")]))
           [Resolved pending_poll]).
  right. left. reflexivity.
Defined.

(** X7.  The polling loop catches nothing: after any number of pending
    polls, a [fetch] that rejects, or a successful poll response whose
    body is not JSON or is [null], makes the handler throw instead of
    replying. *)
Theorem polling_failures_are_thrown
    (pollUrl apiKey : json) (pre : list response) (bad : fetched)
    (post : list fetched) :
  forallb pending pre = true ->
  (bad = NetworkError
   \/ exists r, bad = Resolved r /\ Proxy.ok r = true
                /\ (json_body r = None \/ json_body r = Some JNull)) ->
  poll_loop pollUrl apiKey (map Resolved pre ++ bad :: post)
  = (Crashed EngineErr, repeat (Poll pollUrl apiKey) (S (List.length pre))).
Proof.
  intros Hpre Hbad.
  destruct Hbad as [-> | (r & -> & Hok & Hbody)].
  - induction pre as [| p pre IH]; simpl; [reflexivity |].
    simpl in Hpre. apply andb_true_iff in Hpre as [Hp Hpre].
    rewrite (pending_continues p Hp), (IH Hpre). reflexivity.
  - apply poll_loop_skips_pending; [exact Hpre |].
    unfold poll_step. rewrite Hok.
    destruct Hbody as [-> | ->]; reflexivity.
Qed.

Lemma polling_failures_are_thrown_witness :
  poll_loop (JStr "https://x/poll/1") (JStr "test-key")
    (map Resolved [pending_poll] ++ NetworkError :: [])
  = (Crashed EngineErr,
     repeat (Poll (JStr "https://x/poll/1") (JStr "test-key")) 2).
Proof.
  apply (polling_failures_are_thrown _ _ [pending_poll] NetworkError []);
    [reflexivity | left; reflexivity].
Defined.








Lemma truthy_text (s : string) : s <> "" -> truthy_json (JStr s) = true.
Proof. intros H. simpl. apply negb_true_iff, String.eqb_neq, H. Qed.





















End ProxyTrace.

(* ================================================================== *)
(** ** The tests' copy of the handler against the route                 *)
(* ================================================================== *)

Section TestDoubleProperties.

Lemma error_reply_constructed (label : string) (res : response) :
  error_reply label res = constructed (TestDouble.error_reply label res).
Proof.
  unfold error_reply, TestDouble.error_reply.
  destruct (error_message _ res); reflexivity.
Qed.

Lemma poll_step_constructed (pollRes : response) :
  poll_step pollRes
  = match TestDouble.poll_step pollRes with
    | Leave o => Leave (constructed o)
    | Continue => Continue
    end.
Proof.
  unfold poll_step, TestDouble.poll_step.
  destruct (negb (Proxy.ok pollRes)); [rewrite error_reply_constructed; reflexivity |].
  destruct (json_body pollRes) as [result |]; [| reflexivity].
  destruct (get "status" result) as [st | e]; [| reflexivity].
  destruct (is_string "Ready" st && _); [reflexivity |].
  destruct (is_string "Pending" st); [reflexivity |].
  destruct (failure_message result st); reflexivity.
Qed.

Lemma bounded_pending_continues (r : response) :
  pending r = true -> TestDouble.poll_step r = Continue.
Proof.
  intros H. pose proof (pending_continues r H) as Hstep.
  rewrite poll_step_constructed in Hstep.
  destruct (TestDouble.poll_step r); [discriminate | reflexivity].
Qed.

Lemma bounded_loop_agrees (left : nat) (pollUrl apiKey : json) (net : list fetched) :
  fst (TestDouble.poll_loop left pollUrl apiKey net) <> polling_timeout ->
  poll_loop pollUrl apiKey net
  = (constructed (fst (TestDouble.poll_loop left pollUrl apiKey net)),
     snd (TestDouble.poll_loop left pollUrl apiKey net)).
Proof.
  revert net. induction left as [| left IH]; intros net Hend.
  - exfalso. apply Hend. reflexivity.
  - destruct net as [| [| pollRes] net]; try reflexivity.
    simpl in *. rewrite poll_step_constructed.
    destruct (TestDouble.poll_step pollRes); [reflexivity |].
    rewrite (IH net Hend). reflexivity.
Qed.

Lemma bounded_submit_agrees
    (apiUrl : string) (apiKey body : json) (net : list fetched) :
  fst (TestDouble.submit apiUrl apiKey body net) <> polling_timeout ->
  submit apiUrl apiKey body net
  = (constructed (fst (TestDouble.submit apiUrl apiKey body net)),
     snd (TestDouble.submit apiUrl apiKey body net)).
Proof.
  unfold TestDouble.submit, submit, after. cbn [fst snd].
  destruct net as [| [| submitRes] net]; try reflexivity.
  destruct (negb (Proxy.ok submitRes));
    [rewrite error_reply_constructed; reflexivity |].
  destruct (json_body submitRes) as [submitData |]; [| reflexivity].
  destruct (get "sample" submitData) as [sample | e]; [| reflexivity].
  destruct (truthy sample); [reflexivity |].
  destruct (field "polling_url" submitData) as [pollUrl |]; [| reflexivity].
  destruct (truthy_json pollUrl); [| reflexivity].
  intros Hend. rewrite (bounded_loop_agrees _ _ _ _ Hend). reflexivity.
Qed.

(** X9.  The handler the tests exercise is the route's logic, but for the
    construction of the reply.  On every request body and every sequence
    of responses on which the copy does not give up with [Polling
    timeout], the route makes the same calls, and it ends as the copy
    does, except that where the copy returns a result the route
    constructs a [Response] with the status of that result, and throws
    when the constructor refuses the status (a provider status outside
    200 to 599, or 204, 205, 304). *)
Theorem test_copy_agrees_with_route (body : json) (net : list fetched) :
  fst (TestDouble.handleGenerate body net) <> polling_timeout ->
  POST (Some body) net
  = (constructed (fst (TestDouble.handleGenerate body net)),
     snd (TestDouble.handleGenerate body net)).
Proof.
  unfold TestDouble.handleGenerate, POST.
  destruct body; try reflexivity;
    (destruct (negb (truthy _) || negb (truthy _)); [reflexivity |];
     destruct (truthy (field "image" _));
       [apply bounded_submit_agrees |];
     destruct (truthy (field "imageUrl" _));
       [| apply bounded_submit_agrees];
     unfold after; cbn [fst snd];
     destruct net as [| [| res] net']; try reflexivity;
     destruct (urlToBase64 res); [| reflexivity];
     intros Hend; rewrite (bounded_submit_agrees _ _ _ _ Hend); reflexivity).
Qed.

Lemma test_copy_agrees_with_route_witness :
  (TestDouble.handleGenerate cat_request
     [Resolved (ok_json (JObj [("polling_url", JStr "https://x/poll/1")]));
      Resolved pending_poll;
      Resolved (ok_json (JObj [("status", JStr "ContentModerated")]))]
   = (Replied 500 (JObj [("error", JStr "Generation failed: ContentModerated")]),
      [Submit BFL_API_9B (JStr "test-key") (JObj (base_payload cat_request));
       Poll (JStr "https://x/poll/1") (JStr "test-key");
       Poll (JStr "https://x/poll/1") (JStr "test-key")])
   /\ POST (Some cat_request)
        [Resolved (ok_json (JObj [("polling_url", JStr "https://x/poll/1")]));
         Resolved pending_poll;
         Resolved (ok_json (JObj [("status", JStr "ContentModerated")]))]
      = (Replied 500 (JObj [("error", JStr "Generation failed: ContentModerated")]),
         [Submit BFL_API_9B (JStr "test-key") (JObj (base_payload cat_request));
          Poll (JStr "https://x/poll/1") (JStr "test-key");
          Poll (JStr "https://x/poll/1") (JStr "test-key")]))
  /\ (TestDouble.handleGenerate cat_request [Resolved not_modified]
      = (Replied 304 (JObj [("error", JStr "Not Modified")]),
         [Submit BFL_API_9B (JStr "test-key") (JObj (base_payload cat_request))])
      /\ POST (Some cat_request) [Resolved not_modified]
         = (Crashed EngineErr,
            [Submit BFL_API_9B (JStr "test-key") (JObj (base_payload cat_request))])).
Proof.
  split; (split; [vm_compute; reflexivity |]).
  - refine (eq_trans (test_copy_agrees_with_route cat_request _ _) _);
      [vm_compute; discriminate | vm_compute; reflexivity].
  - refine (eq_trans (test_copy_agrees_with_route cat_request _ _) _);
      [vm_compute; discriminate | vm_compute; reflexivity].
Defined.

Lemma bounded_loop_times_out
    (pollUrl apiKey : json) (pre : list response) (post : list fetched) :
  forallb pending pre = true ->
  TestDouble.poll_loop (List.length pre) pollUrl apiKey (map Resolved pre ++ post)
  = (polling_timeout, repeat (Poll pollUrl apiKey) (List.length pre)).
Proof.
  intros Hpre. induction pre as [| p pre IH]; [reflexivity |].
  simpl in Hpre. apply andb_true_iff in Hpre as [Hp Hpre].
  simpl. rewrite (bounded_pending_continues p Hp), (IH Hpre). reflexivity.
Qed.

(** X10.  Where the tests' copy and the route part ways: after a
    submission that hands out a polling URL, ten pending polls make the
    copy reply [Polling timeout] with status 500, having issued ten polls
    and no more, whatever would come next; the route, given the same ten
    responses, has issued an eleventh poll and is still waiting. *)
Theorem test_copy_gives_up_after_ten_polls
    (apiUrl : string) (apiKey body pollUrl : json) (submitRes : response)
    (submitData : json) (pre : list response) (post : list fetched) :
  Proxy.ok submitRes = true ->
  json_body submitRes = Some submitData ->
  truthy (field "sample" submitData) = false ->
  field "polling_url" submitData = Some pollUrl ->
  truthy_json pollUrl = true ->
  List.length pre = TestDouble.maxIterations ->
  forallb pending pre = true ->
  TestDouble.submit apiUrl apiKey body (Resolved submitRes :: map Resolved pre ++ post)
  = (polling_timeout,
     Submit apiUrl apiKey body :: repeat (Poll pollUrl apiKey) 10)
  /\ submit apiUrl apiKey body (Resolved submitRes :: map Resolved pre)
     = (Awaiting, Submit apiUrl apiKey body :: repeat (Poll pollUrl apiKey) 11).
Proof.
  intros Hok Hbody Hsample Hpoll Htruthy Hlen Hpre.
  assert (Hnull : submitData <> JNull) by (intros ->; discriminate).
  unfold TestDouble.submit, submit.
  rewrite Hok, Hbody, (get_field _ _ Hnull), Hsample, Hpoll, Htruthy.
  cbn [negb]. split.
  - rewrite <- Hlen, (bounded_loop_times_out _ _ _ _ Hpre), Hlen. reflexivity.
  - rewrite (poll_loop_all_pending _ _ _ Hpre), Hlen. reflexivity.
Qed.

Lemma test_copy_gives_up_after_ten_polls_witness :
  TestDouble.submit BFL_API_9B (JStr "test-key") (JObj (base_payload cat_request))
    (Resolved (ok_json (JObj [("polling_url", JStr "https://x/poll/1")]))
       :: map Resolved (repeat pending_poll 10) ++ [NetworkError])
  = (polling_timeout,
     Submit BFL_API_9B (JStr "test-key") (JObj (base_payload cat_request))
       :: repeat (Poll (JStr "https://x/poll/1") (JStr "test-key")) 10)
  /\ submit BFL_API_9B (JStr "test-key") (JObj (base_payload cat_request))
       (Resolved (ok_json (JObj [("polling_url", JStr "https://x/poll/1")]))
          :: map Resolved (repeat pending_poll 10))
     = (Awaiting,
        Submit BFL_API_9B (JStr "test-key") (JObj (base_payload cat_request))
          :: repeat (Poll (JStr "https://x/poll/1") (JStr "test-key")) 11).
Proof.
  apply (test_copy_gives_up_after_ten_polls _ _ _ (JStr "https://x/poll/1")
           (ok_json (JObj [("polling_url", JStr "https://x/poll/1")]))
           (JObj [("polling_url", JStr "https://x/poll/1")])
           (repeat pending_poll 10) [NetworkError]);
    reflexivity.
Defined.

End TestDoubleProperties.

(* ================================================================== *)
(** ** Further properties of the controller                             *)
(* ================================================================== *)

Section ControllerFurther.

Variable toFixed1 : Z -> string.

Ltac handlers :=
  unfold step, handleKeyDown, handleGenerate, generateImage, fetchSettled,
    imageSettled, generated, preloaded, catch, finally, stopTimer,
    clearInterval, setInterval, tick, handleDragEnter, handleDragOver,
    handleDragLeave, handleDrop, fileRead, toggleEditMode,
    handleApiKeyChange, requestFrames in *.

Ltac cases :=
  repeat match goal with
         | _ => progress simpl
         | |- context [match ?x with _ => _ end] =>
             lazymatch x with
             | context [match _ with _ => _ end] => fail
             | _ => destruct x eqn:?
             end
         end.

(** What a trigger adds to the effects, path by path. *)
Lemma handleGenerate_sends (w : world) (now later : Z) :
  exists added,
    log (handleGenerate toFixed1 now later w) = (log w ++ added)%list
    /\ (fetches added <= 1)%nat
    /\ forall body,
         In (Fetch body) added ->
         well_built (ui w) body.
Proof.
  assert (Hnoop : exists added,
    log w = (log w ++ added)%list
    /\ (fetches added <= 1)%nat
    /\ forall body,
         In (Fetch body) added ->
         well_built (ui w) body).
  { exists []. split; [symmetry; apply app_nil_r |].
    split; [simpl; lia | intros body []]. }
  unfold handleGenerate.
  destruct (trim (prompt (ui w)) =? "") eqn:Hprompt; [exact Hnoop |].
  apply String.eqb_neq in Hprompt.
  destruct (isGenerating (ui w)); [exact Hnoop |].
  clear Hnoop. cbn [orb]. unfold generateImage.
  cbn [ui update setInterval emit setIntervals setTimerIntervalRef setGenTime
       setLoadingComplete setShowLoading setIsGenerating apiKey editMode
       currentImageUrl modelVariant referenceImageBase64Ref].
  assert (Hsent : forall body : json,
    well_built (ui w) body ->
    exists added,
      (log w ++ [SetInterval (fresh w); Fetch body])%list = (log w ++ added)%list
      /\ (fetches added <= 1)%nat
      /\ forall body',
           In (Fetch body') added ->
           well_built (ui w) body').
  { intros body Hbody. eexists. split; [reflexivity |].
    split; [simpl; lia |].
    intros body' [H | [H | []]]; [discriminate |].
    injection H as <-. exact Hbody. }
  assert (Hquiet : forall added,
    fetches added = 0%nat ->
    (forall body, ~ In (Fetch body) added) ->
    exists added',
      (log w ++ added)%list = (log w ++ added')%list
      /\ (fetches added' <= 1)%nat
      /\ forall body,
           In (Fetch body) added' ->
           well_built (ui w) body).
  { intros added Hcount Hnone. exists added. split; [reflexivity |].
    split; [lia |]. intros body Hin. destruct (Hnone body Hin). }
  destruct (apiKey (ui w) =? "") eqn:Hkey.
  - handlers. simpl. rewrite <- !app_assoc. simpl.
    apply Hquiet; [reflexivity |].
    intros body Hin. simpl in Hin. intuition discriminate.
  - apply String.eqb_neq in Hkey.
    destruct (editMode (ui w)) eqn:Hedit; cbn [andb].
    + destruct (truthy_json (currentImageUrl (ui w))) eqn:Hcur.
      * destruct (currentImageUrl (ui w)) as [| | | url | | |] eqn:Hurl;
          try (handlers; simpl; rewrite <- !app_assoc; simpl;
               apply Hquiet; [reflexivity |];
               intros body Hin; simpl in Hin; intuition discriminate).
        destruct (starts_with "blob:" url) eqn:Hblob.
        -- simpl. rewrite <- !app_assoc. simpl. apply Hsent.
           unfold well_built. rewrite Hurl, Hedit.
           destruct (referenceImageBase64Ref (ui w)); simpl;
             repeat split; auto; try discriminate; intros; congruence.
        -- simpl. rewrite <- !app_assoc. simpl. apply Hsent.
           unfold well_built. rewrite Hurl, Hedit.
           simpl. repeat split; auto; discriminate.
      * simpl. rewrite <- !app_assoc. simpl. apply Hsent.
        unfold well_built. rewrite Hedit.
        simpl. repeat split; auto; try discriminate.
        intros H. contradiction.
    + simpl. rewrite <- !app_assoc. simpl. apply Hsent.
      unfold well_built. rewrite Hedit.
      simpl. repeat split; auto.
      intros H. contradiction.
Qed.

(** X11.  What [generateImage] sends.  A trigger adds to the effects at
    most one call to the proxy, and the body of that call holds the
    trimmed prompt (not empty), the credential (not empty) and the model
    variant; it never holds both an inline image and a source URL; it
    holds neither unless edit mode is on; and a source URL it holds is
    the current image. *)
Theorem request_carries_one_reference (w : world) (now later : Z) :
  exists added,
    log (handleGenerate toFixed1 now later w) = (log w ++ added)%list
    /\ (fetches added <= 1)%nat
    /\ forall body,
         In (Fetch body) added ->
         well_built (ui w) body.
Proof.
  destruct (handleGenerate_sends w now later) as (added & Hlog & Hcount & Hbuilt).
  exists added. split; [exact Hlog |]. split; [exact Hcount |].
  intros body Hin. exact (Hbuilt body Hin).
Qed.

(** X12.  The component and the route together.  A request that a trigger
    sends is never turned away by the validation of the route, which
    goes on to the network; and where the route submits, it submits the
    prompt as the component trimmed it, under the credential of the
    user, to the 4B endpoint exactly when the selected variant is [4b]. *)
Theorem built_request_reaches_provider
    (w : world) (now later : Z) (added : list effect) (body : json)
    (net : list fetched) :
  log (handleGenerate toFixed1 now later w) = (log w ++ added)%list ->
  In (Fetch body) added ->
  snd (POST (Some body) net) <> []
  /\ forall url key payload,
       In (Submit url key payload) (snd (POST (Some body) net)) ->
       key = JStr (apiKey (ui w))
       /\ field "prompt" payload = Some (JStr (trim (prompt (ui w))))
       /\ (modelVariant (ui w) = "4b" -> url = BFL_API_4B)
       /\ (modelVariant (ui w) <> "4b" -> url = BFL_API_9B).
Proof.
  intros Hlog Hin.
  destruct (handleGenerate_sends w now later) as (added' & Hlog' & _ & Hbuilt).
  rewrite Hlog in Hlog'. apply app_inv_head in Hlog'. subst added'.
  destruct (Hbuilt body Hin) as (Hprompt & Hnonempty & Hkey & Hkeyed & Hvariant & _).
  assert (Htp : truthy (field "prompt" body) = true)
    by (rewrite Hprompt; apply truthy_text, Hnonempty).
  assert (Htk : truthy (field "apiKey" body) = true)
    by (rewrite Hkey; apply truthy_text, Hkeyed).
  split.
  - rewrite (POST_accepted body net Htp Htk).
    destruct (truthy (field "image" body));
      [unfold submit, after; cbn [snd]; discriminate |].
    destruct (truthy (field "imageUrl" body));
      unfold submit, after; cbn [snd]; discriminate.
  - intros url key payload Hsubmit.
    destruct (POST_trace body net)
      as (images & submissions & polls & Hcalls & Himages & Hsub & Hpolls).
    rewrite Hcalls in Hsubmit.
    apply in_app_or in Hsubmit as [Hsubmit | Hsubmit];
      [destruct Himages as [-> | ->]; simpl in Hsubmit; intuition discriminate |].
    apply in_app_or in Hsubmit as [Hsubmit | Hsubmit];
      [| apply (polls_hold_no_submit _ _ Hpolls) in Hsubmit; discriminate].
    destruct Hsub as [-> | (extra & -> & _)]; [contradiction |].
    destruct Hsubmit as [[= <- <- <-] | []].
    unfold endpoint_of. rewrite Hkey, Hprompt, Hvariant. simpl.
    repeat split.
    + intros ->. reflexivity.
    + intros Hneq. apply String.eqb_neq in Hneq. rewrite Hneq. reflexivity.
Qed.

Lemma imaged_mount (savedKey : option string) : imaged (mount savedKey).
Proof.
  unfold imaged. simpl. repeat split; intros; solve [discriminate | congruence].
Qed.

Lemma animationFrame_images (w : world) :
  editMode (ui (animationFrame w)) = editMode (ui w)
  /\ currentImageUrl (ui (animationFrame w)) = currentImageUrl (ui w)
  /\ previousImageUrl (ui (animationFrame w)) = previousImageUrl (ui w)
  /\ apiKey (ui (animationFrame w)) = apiKey (ui w)
  /\ genTime (ui (animationFrame w)) = genTime (ui w)
  /\ last_stored (log (animationFrame w)) = last_stored (log w).
Proof.
  unfold animationFrame.
  set (keep w0 := editMode (ui w0) = editMode (ui w)
                  /\ currentImageUrl (ui w0) = currentImageUrl (ui w)
                  /\ previousImageUrl (ui w0) = previousImageUrl (ui w)
                  /\ apiKey (ui w0) = apiKey (ui w)
                  /\ genTime (ui w0) = genTime (ui w)
                  /\ last_stored (log w0) = last_stored (log w)).
  assert (Hreset : keep (setFrames [] w)) by (repeat split).
  revert Hreset. generalize (setFrames [] w). generalize (frames w).
  induction l as [| cb l IH]; intros w0 H0; [exact H0 |].
  simpl. apply IH. destruct H0 as (H1 & H2 & H3 & H4 & H5 & H6).
  destruct cb; unfold keep; simpl; repeat split; auto.
  rewrite <- H6. clear. induction (log w0) as [| e l IH]; [reflexivity |].
  simpl. rewrite IH. reflexivity.
Qed.

Ltac settle :=
  repeat split; intros; subst; simpl in *;
  try discriminate; try congruence; eauto.

(** Apart from the switch, the two settlings and the reading of a file,
    no event touches the images or edit mode, and none leaves an attempt
    at the preload. *)
Lemma bystander_images (w : world) (e : event) :
  match e with
  | EditModeClick | FetchSettled _ _ | ImageSettled _ | FileRead => False
  | _ => True
  end ->
  let w' := step toFixed1 w e in
  editMode (ui w') = editMode (ui w)
  /\ currentImageUrl (ui w') = currentImageUrl (ui w)
  /\ previousImageUrl (ui w') = previousImageUrl (ui w)
  /\ (running w' = running w
      \/ running w' = None
      \/ exists a, running w' = Some a /\ awaiting a = AwaitFetch).
Proof.
  destruct e; try contradiction; intros _ w'; subst w';
    try (destruct (animationFrame_images w) as (He & Hc & Hp & _);
         destruct (animationFrame_frame w) as [Hs _];
         repeat split; auto; left; apply (session_running _ _ Hs));
    handlers; cases; repeat split; eauto.
Qed.

(** Every handler keeps an image on show where one is needed. *)
Lemma imaged_step (w : world) (e : event) :
  imaged w -> imaged (step toFixed1 w e).
Proof.
  intros (H1 & H2 & H3).
  assert (Hby : match e with
                | EditModeClick | FetchSettled _ _ | ImageSettled _ | FileRead =>
                    False
                | _ => True
                end ->
                imaged (step toFixed1 w e)).
  { intros He. destruct (bystander_images w e He) as (Hedit & Hcur & Hprev & Hrun).
    unfold imaged. rewrite Hedit, Hcur, Hprev. repeat split; auto.
    intros a u Ha Hu.
    destruct Hrun as [Hrun | [Hrun | (a' & Hrun & Hstage)]]; rewrite Hrun in Ha.
    - eapply H3; eauto.
    - discriminate.
    - injection Ha as <-. congruence. }
  destruct e; try (apply Hby; exact I); clear Hby.
  - (* the click on the edit-mode switch *)
    unfold step, toggleEditMode, imaged.
    destruct (currentImageUrl (ui w)) eqn:Hcur; simpl; rewrite ?Hcur; settle.
  - (* the call settles *)
    unfold step, fetchSettled.
    destruct (running w) as [a |] eqn:Hrun; [| unfold imaged; rewrite Hrun; settle].
    destruct (awaiting a) eqn:Hstage; [| unfold imaged; rewrite Hrun; settle].
    destruct (generateImage_resume f) as [imageUrl | err].
    + unfold generated. destruct (truthy imageUrl) eqn:Htruthy.
      * unfold imaged, stopTimer.
        destruct (timerIntervalRef (ui w)); simpl; repeat split; auto;
          intros a0 u [= <-] [= <-];
          destruct imageUrl as [[| | | | | |] |]; discriminate.
      * unfold imaged, finally, stopTimer.
        destruct (timerIntervalRef (ui w)); simpl; repeat split; auto;
          intros; discriminate.
    + unfold imaged, finally, catch, stopTimer.
      destruct (timerIntervalRef (ui w)); simpl; repeat split; auto;
        intros; discriminate.
  - (* the preload settles *)
    unfold step, imageSettled.
    destruct (running w) as [a |] eqn:Hrun; [| unfold imaged; rewrite Hrun; settle].
    destruct (awaiting a) as [| imageUrl] eqn:Hstage;
      [unfold imaged; rewrite Hrun; settle |].
    pose proof (H3 a imageUrl eq_refl Hstage) as Hnew.
    destruct loaded.
    + unfold imaged, preloaded, finally, requestFrames.
      destruct (truthy_json (closedCurrent a)); simpl; repeat split; auto;
        intros; discriminate.
    + unfold imaged, finally, catch, stopTimer.
      destruct (timerIntervalRef (ui w)); simpl; repeat split; auto;
        intros; discriminate.
  - (* a file is read *)
    unfold step, fileRead.
    destruct (readings w) as [| r rest]; [unfold imaged; auto |].
    destruct (data_url (dropped r)).
    + unfold imaged, requestFrames.
      destruct (truthy_json (dropCurrent r)); simpl; repeat split; auto;
        intros; discriminate.
    + unfold imaged. simpl. auto.
Qed.

Lemma imaged_run (events : list event) (w : world) :
  imaged w -> imaged (run toFixed1 w events).
Proof.
  revert w. induction events as [| e events IH]; intros w H; [exact H |].
  rewrite run_cons. apply IH, imaged_step, H.
Qed.

(** X13.  In every state the component can reach, edit mode is on only
    while an image is on show, and a previous image is kept only while a
    current one is on show. *)
Theorem edit_mode_has_an_image (savedKey : option string) (events : list event) :
  let w := run toFixed1 (mount savedKey) events in
  (editMode (ui w) = true -> currentImageUrl (ui w) <> JNull)
  /\ (previousImageUrl (ui w) <> JNull -> currentImageUrl (ui w) <> JNull).
Proof.
  intros w.
  destruct (imaged_run events (mount savedKey) (imaged_mount savedKey))
    as (H1 & H2 & _).
  split; assumption.
Qed.

Lemma last_stored_snoc (l : list effect) (e : effect) :
  last_stored (l ++ [e])
  = match e with
    | StoreKey v => Some v
    | _ => last_stored l
    end.
Proof.
  induction l as [| x l IH]; [destruct e; reflexivity |].
  simpl. rewrite IH. destruct x, e; try reflexivity;
    destruct (last_stored l); reflexivity.
Qed.

(** Only a change of the key field writes to the store, and it writes
    what it puts in the state. *)
Lemma key_step (w : world) (e : event) :
  let w' := step toFixed1 w e in
  match e with
  | ApiKeyChange v => apiKey (ui w') = v /\ last_stored (log w') = Some v
  | _ => apiKey (ui w') = apiKey (ui w)
         /\ last_stored (log w') = last_stored (log w)
  end.
Proof.
  destruct e; intros w'; subst w';
    try (destruct (animationFrame_images w) as (_ & _ & _ & Hk & _ & Hl);
         split; assumption);
    handlers; cases; rewrite ?last_stored_snoc; split; reflexivity.
Qed.

(** X14.  The credential survives a reload: in every state the component
    can reach, a component mounted afresh on what [localStorage] then
    holds starts with the credential that state has. *)
Theorem credential_survives_reload (savedKey : option string) (events : list event) :
  let w := run toFixed1 (mount savedKey) events in
  apiKey (ui (mount (stored_key savedKey (log w)))) = apiKey (ui w).
Proof.
  intros w. subst w.
  assert (Hgen : forall w0,
             apiKey (ui (mount (stored_key savedKey (log w0)))) = apiKey (ui w0) ->
             apiKey (ui (mount (stored_key savedKey
                                  (log (run toFixed1 w0 events)))))
             = apiKey (ui (run toFixed1 w0 events))).
  { induction events as [| e events IH]; intros w0 H0; [exact H0 |].
    rewrite run_cons. apply IH.
    pose proof (key_step w0 e) as Hstep. cbv zeta in Hstep.
    unfold stored_key in *.
    destruct e; destruct Hstep as [Hk Hl]; rewrite Hk, Hl; try exact H0.
    reflexivity. }
  apply Hgen. destruct savedKey; reflexivity.
Qed.

(** X15.  When the attempt in flight fails, at the call or at the
    preload, the handler clears the timer, logs the error and shows one
    alert with its message; it takes the loading overlay down, lowers the
    flag and keeps no attempt, so that a new trigger is possible; and it
    leaves the current and previous images and edit mode as they were. *)
Theorem failure_keeps_images
    (savedKey : option string) (events : list event) (ev : event) (e : thrown) :
  let w := run toFixed1 (mount savedKey) events in
  fails w ev e ->
  let w' := step toFixed1 w ev in
  (exists h, log w' = (log w ++ [ClearInterval h; ConsoleError; Alert (shown e)])%list)
  /\ currentImageUrl (ui w') = currentImageUrl (ui w)
  /\ previousImageUrl (ui w') = previousImageUrl (ui w)
  /\ editMode (ui w') = editMode (ui w)
  /\ showLoading (ui w') = false
  /\ loadingComplete (ui w') = false
  /\ isGenerating (ui w') = false
  /\ running w' = None.
Proof.
  intros w (a & Hrun & Hfail) w'. subst w'.
  assert (Hcons : consistent w) by apply consistent_run, consistent_mount.
  unfold consistent in Hcons. rewrite Hrun in Hcons.
  destruct Hcons as (Hflag & h & Href & Hint).
  destruct Hfail as [(Hstage & f & now & -> & Hthrow)
                    | ((u & Hstage) & -> & ->)].
  - unfold step, fetchSettled. rewrite Hrun, Hstage, Hthrow.
    unfold finally, catch, stopTimer. rewrite Href. simpl.
    repeat split. exists h. rewrite <- !app_assoc. reflexivity.
  - unfold step, imageSettled. rewrite Hrun, Hstage.
    unfold finally, catch, stopTimer. rewrite Href. simpl.
    repeat split. exists h. rewrite <- !app_assoc. reflexivity.
Qed.

Lemma in_turn_throws {A} (l : list (completion A)) (e : thrown) :
  in_turn l = Throw e -> In (Throw e) l.
Proof.
  induction l as [| [a | e'] rest IH]; simpl; [discriminate | |].
  - destruct (in_turn rest); [discriminate |]. intros [= <-]. right. auto.
  - intros [= <-]. left. reflexivity.
Qed.

Lemma to_string_json_throws (v : json) (e : thrown) :
  to_string_json v = Throw e -> e = EngineErr.
Proof.
  revert v e. fix IH 1. intros v e.
  destruct v as [| [|] | n | s | items | fields | m k];
    try discriminate.
  - assert (Hall : Forall (fun x => forall e', to_string_json x = Throw e' ->
                                           e' = EngineErr) items).
    { induction items as [| x rest IHrest]; constructor; [apply IH | exact IHrest]. }
    clear IH. simpl.
    destruct (in_turn _) as [pieces | e'] eqn:Hpieces; [discriminate |].
    intros [= <-]. apply in_turn_throws in Hpieces.
    induction Hall as [| x rest Hx _ IHrest]; [contradiction |].
    destruct Hpieces as [Hthrow | Hrest]; [| exact (IHrest Hrest)].
    destruct x; try discriminate; exact (Hx _ Hthrow).
  - simpl. destruct (assoc "toString" fields); [intros [= <-]; reflexivity | discriminate].
Qed.

(** X16.  The message the route relays is the message the user sees: when
    the call of the attempt in flight comes back not [ok] with a body
    [{error: m}], [m] truthy, as the route builds its error replies, the
    component clears the timer, logs the error and alerts [m] converted
    to a string; when [m] cannot be converted (an object with a key
    [toString] of its own, or an array that holds one), the alert shows
    the message of the [TypeError] instead. *)
Theorem relayed_error_is_shown
    (savedKey : option string) (events : list event) (st now : Z) (m : json) :
  let w := run toFixed1 (mount savedKey) events in
  (exists a, running w = Some a /\ awaiting a = AwaitFetch) ->
  truthy_json m = true ->
  let w' := step toFixed1 w (FetchSettled (as_reply false st (JObj [("error", m)])) now) in
  exists h,
    log w' = (log w ++ [ClearInterval h; ConsoleError; Alert (alerted m)])%list.
Proof.
  intros w Hrun Hm w'.
  destruct Hrun as (a & Hrun & Hstage).
  assert (Hcons : consistent w) by apply consistent_run, consistent_mount.
  unfold consistent in Hcons. rewrite Hrun in Hcons.
  destruct Hcons as (Hflag & h & Href & Hint).
  exists h. subst w'.
  unfold step, fetchSettled. rewrite Hrun, Hstage.
  unfold generateImage_resume, as_reply, alerted.
  cbn [data Controller.ok negb get assoc].
  cbn [String.eqb Ascii.eqb Bool.eqb bind first_truthy]. rewrite Hm.
  destruct (to_string_json m) as [text | e] eqn:Htext;
    [| rewrite (to_string_json_throws m e Htext)];
    unfold finally, catch, stopTimer; rewrite Href; simpl;
    rewrite <- !app_assoc; reflexivity.
Qed.

Lemma animationFrame_ui (w : world) :
  ui (animationFrame w) = ui w
  \/ ui (animationFrame w) = setShowCurrentImage true (ui w).
Proof.
  unfold animationFrame.
  assert (Hreset : ui (setFrames [] w) = ui w
                   \/ ui (setFrames [] w) = setShowCurrentImage true (ui w))
    by (left; reflexivity).
  revert Hreset. generalize (setFrames [] w). generalize (frames w).
  induction l as [| cb l IH]; intros w0 H0; [exact H0 |].
  simpl. apply IH. destruct cb; simpl; [exact H0 |].
  right. destruct H0 as [-> | ->]; reflexivity.
Qed.

Lemma overlaid_mount (savedKey : option string) : overlaid (mount savedKey).
Proof. unfold overlaid. simpl. split; [reflexivity | discriminate]. Qed.

Lemma overlaid_step (w : world) (e : event) :
  overlaid w -> overlaid (step toFixed1 w e).
Proof.
  unfold overlaid. intros H.
  destruct e;
    try (simpl step;
         destruct (animationFrame_frame w) as [Hs _];
         rewrite (session_running _ _ Hs);
         destruct (animationFrame_ui w) as [-> | ->]; exact H).
  all: handlers; destruct (running w) as [a |] eqn:Hrun;
    [destruct H as (Hflag & Hshow & Hdone) | destruct H as (Hflag & Hdone)];
    try rewrite Hflag; rewrite ?orb_true_r;
    cases; simpl in *; rewrite ?Hrun; simpl;
    repeat match goal with
           | H : Some _ = Some _ |- _ => injection H as H; subst
           | H : awaiting _ = _ |- _ => rewrite H in *
           end;
    try discriminate; auto.
Qed.

Lemma overlaid_run (events : list event) (w : world) :
  overlaid w -> overlaid (run toFixed1 w events).
Proof.
  revert w. induction events as [| e events IH]; intros w H; [exact H |].
  apply IH, overlaid_step, H.
Qed.

(** X17.  The loading overlay follows the attempt.  In every state the
    component can reach, the overlay is rendered visible and not complete
    while the call to the proxy is awaited, visible and complete while
    the image is preloaded, and, with no attempt in flight, never
    complete without being visible. *)
Theorem overlay_follows_attempt (savedKey : option string) (events : list event) :
  let w := run toFixed1 (mount savedKey) events in
  let overlay := loadingOverlayClass (render (ui w)) in
  match running w with
  | Some a =>
      match awaiting a with
      | AwaitFetch => overlay = "loadingOverlay visible"
      | AwaitImage _ => overlay = "loadingOverlay visible complete"
      end
  | None => overlay <> "loadingOverlay complete"
  end.
Proof.
  intros w overlay. subst overlay.
  assert (H : overlaid w) by apply overlaid_run, overlaid_mount.
  unfold overlaid in H. unfold render, loadingOverlayClass.
  destruct (running w) as [a |].
  - destruct H as (_ & -> & ->). destruct (awaiting a); reflexivity.
  - destruct H as (_ & H).
    destruct (loadingComplete (ui w)); [rewrite H by reflexivity |];
      destruct (showLoading (ui w)); discriminate.
Qed.

(** X18.  The placeholder and the images exclude each other.  In every
    state the component can reach, when the placeholder is rendered no
    image is, neither the current nor the previous one, and the edit-mode
    switch is rendered disabled and not active. *)
Theorem placeholder_excludes_images (savedKey : option string) (events : list event) :
  let v := render (ui (run toFixed1 (mount savedKey) events)) in
  placeholder v = true ->
  previousImg v = None
  /\ currentImg v = None
  /\ editModeToggleClass v = "editModeToggle disabled"
  /\ toggleSwitchClass v = "toggleSwitch disabled".
Proof.
  intros v. subst v. set (w := run toFixed1 (mount savedKey) events).
  assert (H : imaged w) by apply imaged_run, imaged_mount.
  destruct H as (Hedit & Hprev & _).
  unfold render, placeholder, previousImg, currentImg, editModeToggleClass,
    toggleSwitchClass, hasImage.
  destruct (currentImageUrl (ui w)) eqn:Hcur; try discriminate. intros _.
  destruct (previousImageUrl (ui w)) eqn:Hp;
    try (exfalso; apply Hprev; [discriminate | reflexivity]).
  destruct (editMode (ui w));
    [exfalso; apply Hedit; reflexivity |].
  repeat split.
Qed.

(** X19.  Timer callbacks move the readout only for the attempt whose
    call is awaited.  In every state the component can reach: while the
    call is awaited, the callback of the attempt's own interval writes
    the time since the trigger and any other callback does nothing; in
    every other state a callback does nothing at all. *)
Theorem ticks_follow_the_attempt (savedKey : option string) (events : list event) :
  let w := run toFixed1 (mount savedKey) events in
  match running w with
  | Some {| startTime := t; awaiting := AwaitFetch |} =>
      exists h,
        timerIntervalRef (ui w) = Some h
        /\ (forall now,
               ui (step toFixed1 w (Tick h now))
               = setGenTime (toFixed1 (now - t) ++ "s") (ui w))
        /\ (forall h' now, h' <> h -> step toFixed1 w (Tick h' now) = w)
  | _ => forall h now, step toFixed1 w (Tick h now) = w
  end.
Proof.
  intros w.
  assert (H : consistent w) by apply consistent_run, consistent_mount.
  unfold consistent in H. unfold step, tick.
  destruct (running w) as [[t c [| u]] |]; simpl in H.
  - destruct H as (_ & h & Href & ->). exists h. split; [exact Href |].
    simpl. split.
    + intros now. rewrite Pos.eqb_refl. reflexivity.
    + intros h' now Hneq.
      destruct (Pos.eqb_spec h h') as [-> |]; [contradiction | reflexivity].
  - destruct H as (_ & h & _ & ->). reflexivity.
  - destruct H as (_ & ->). reflexivity.
Qed.




Lemma until_comma_clean (payload : string) :
  no_comma payload = true -> until_comma payload = payload.
Proof.
  induction payload as [| c rest IH]; [reflexivity |].
  simpl. destruct (Ascii.eqb c ","); [discriminate |].
  simpl. intros H. rewrite IH by exact H. reflexivity.
Qed.

(** X21.  [fileToBase64] takes the payload out of a data URL: for a
    header and a payload without commas, as a media type with its
    [;base64] mark and base64 text are, the data URL [header,payload]
    gives back [payload]. *)
Theorem fileToBase64_gives_payload (header payload : string) :
  no_comma header = true ->
  no_comma payload = true ->
  fileToBase64 (header ++ "," ++ payload) = Some (JStr payload).
Proof.
  intros Hh Hp. unfold fileToBase64.
  induction header as [| c rest IH].
  - simpl. rewrite until_comma_clean by exact Hp. reflexivity.
  - simpl in Hh. apply andb_true_iff in Hh as [Hc Hrest].
    simpl. destruct (Ascii.eqb c ","); [discriminate |].
    apply IH, Hrest.
Qed.

Lemma blob_url_truthy (url : string) :
  starts_with "blob:" url = true -> truthy_json (JStr url) = true.
Proof.
  intros H. apply truthy_text. intros ->. discriminate.
Qed.

(** X22.  A dropped image is what the next request carries.  On an idle
    component with a prompt and a credential and no file being read,
    dropping an image file whose object URL is a [blob:] URL, its
    reading, and a trigger put the component in edit mode on that file
    and send one request, whose body carries the base64 payload of the
    file as [image] and no [imageUrl]. *)
Theorem dropped_image_is_sent_inline
    (w : world) (f : file) (dataUrl : string) (now later : Z) :
  isGenerating (ui w) = false ->
  trim (prompt (ui w)) <> "" ->
  apiKey (ui w) <> "" ->
  readings w = [] ->
  starts_with "image/" (file_type f) = true ->
  data_url f = Some dataUrl ->
  starts_with "blob:" (object_url f) = true ->
  let w' := run toFixed1 w [Drop (Some f); FileRead; KeyDown "Enter" now later] in
  exists body,
    log w' = (log w ++ [RequestFrame; SetInterval (fresh w); Fetch body])%list
    /\ field "image" body = fileToBase64 dataUrl
    /\ field "imageUrl" body = None
    /\ currentImageUrl (ui w') = JStr (object_url f)
    /\ editMode (ui w') = true.
Proof.
  intros Hidle Hprompt Hkey Hread Htype Hdata Hblob w'. subst w'.
  apply String.eqb_neq in Hprompt. apply String.eqb_neq in Hkey.
  pose proof (blob_url_truthy _ Hblob) as Htruthy.
  unfold run. cbn [fold_left step handleDrop].
  rewrite Htype. unfold fileRead. simpl readings.
  rewrite Hread. simpl. rewrite Hdata.
  unfold handleKeyDown, handleGenerate. simpl String.eqb.
  destruct (truthy_json (currentImageUrl (ui w))); simpl;
    rewrite Hprompt, Hidle; simpl;
    unfold generateImage; simpl; rewrite Hkey; simpl;
    simpl in Htruthy; rewrite Htruthy, Hblob;
    destruct (fileToBase64 dataUrl) as [payload |]; simpl;
    eexists; rewrite <- !app_assoc; simpl;
    (split; [reflexivity |]); repeat split.
Qed.

(** X23.  A generated image is the reference of the next edit.  On an idle
    component with a prompt and a credential and edit mode off, a
    trigger, the success of the call with a URL [u] that is not a
    [blob:] URL, the loading of the image, a click on the edit-mode
    switch and a second trigger send a request whose body carries [u] as
    [imageUrl] and no inline [image]. *)
Theorem result_is_next_reference
    (w : world) (f : settled) (u : string) (now later tnow now' later' : Z) :
  isGenerating (ui w) = false ->
  trim (prompt (ui w)) <> "" ->
  apiKey (ui w) <> "" ->
  editMode (ui w) = false ->
  generateImage_resume f = Normal (Some (JStr u)) ->
  u <> "" ->
  starts_with "blob:" u = false ->
  let w' := run toFixed1 w
              [KeyDown "Enter" now later; FetchSettled f tnow; ImageSettled true;
               EditModeClick; KeyDown "Enter" now' later'] in
  exists earlier body,
    log w' = (earlier ++ [Fetch body])%list
    /\ field "imageUrl" body = Some (JStr u)
    /\ field "image" body = None
    /\ field "prompt" body = Some (JStr (trim (prompt (ui w)))).
Proof.
  intros Hidle Hprompt Hkey Hedit Hresume Hu Hblob w'. subst w'.
  apply String.eqb_neq in Hprompt. apply String.eqb_neq in Hkey.
  apply String.eqb_neq in Hu.
  unfold run. cbn [fold_left step].
  unfold handleKeyDown at 2. unfold handleGenerate. simpl String.eqb.
  cbv iota. rewrite Hprompt, Hidle. simpl orb. cbv iota.
  unfold generateImage. cbn [ui update setInterval emit setIntervals].
  simpl apiKey. rewrite Hkey. simpl editMode. rewrite Hedit. simpl andb.
  cbv iota beta.
  unfold fetchSettled. simpl running. cbv iota. simpl awaiting. cbv iota.
  rewrite Hresume.
  unfold generated, stopTimer. simpl timerIntervalRef. cbv iota.
  simpl truthy. rewrite Hu. simpl negb. cbv iota.
  unfold imageSettled. simpl running. cbv iota. simpl awaiting. cbv iota.
  unfold preloaded. simpl closedCurrent.
  destruct (truthy_json (currentImageUrl (ui w))); simpl;
    unfold toggleEditMode; simpl;
    unfold handleKeyDown, handleGenerate; simpl String.eqb; simpl;
    rewrite Hprompt; simpl; unfold generateImage; simpl;
    rewrite Hkey, Hedit, Hu, Hblob; simpl;
    do 2 eexists; (split; [reflexivity |]); repeat split.
Qed.

Lemma frames_run_twice (w : world) :
  frames w <> [] ->
  showCurrentImage (ui (animationFrame (animationFrame w))) = true.
Proof.
  assert (Hfold : forall l w0,
             let w1 := fold_left
                         (fun w cb =>
                            match cb with
                            | Outer => w |> emit RequestFrame
                                         |> setFrames (frames w ++ [Inner])
                            | Inner => w |> update (setShowCurrentImage true)
                            end) l w0 in
             (showCurrentImage (ui w0) = true -> showCurrentImage (ui w1) = true)
             /\ (In Inner l -> showCurrentImage (ui w1) = true)
             /\ (In Inner (frames w0) \/ In Outer l -> In Inner (frames w1))
             /\ (forall cb, In cb (frames w0) -> In cb (frames w1))).
  { induction l as [| cb l IH]; intros w0 w1; subst w1.
    - simpl. repeat split; auto. intros [H | []]. exact H.
    - simpl. destruct cb.
      + destruct (IH (setFrames (frames w0 ++ [Inner]) (emit RequestFrame w0)))
          as (H1 & H2 & H3 & H4).
        simpl in *. repeat split.
        * exact H1.
        * intros [H | H]; [discriminate | auto].
        * intros _. apply H3. left. apply in_or_app. right. left. reflexivity.
        * intros cb Hcb. apply H4. apply in_or_app. left. exact Hcb.
      + destruct (IH (update (setShowCurrentImage true) w0))
          as (H1 & H2 & H3 & H4).
        simpl in *. repeat split.
        * intros _. apply H1. reflexivity.
        * intros _. apply H1. reflexivity.
        * intros [H | [H | H]]; [auto | discriminate | auto].
        * exact H4. }
  intros Hne.
  destruct (Hfold (frames w) (setFrames [] w)) as (_ & H2 & H3 & _).
  fold (animationFrame w) in H2, H3.
  destruct (Hfold (frames (animationFrame w)) (setFrames [] (animationFrame w)))
    as (H1' & H2' & _).
  fold (animationFrame (animationFrame w)) in H1', H2'.
  assert (Hsome : In Inner (frames w) \/ In Outer (frames w)).
  { destruct (frames w) as [| [|] l]; [contradiction | right | left]; left; reflexivity. }
  destruct Hsome as [Hin | Hout].
  - apply H1'. simpl. apply H2, Hin.
  - apply H2'. apply H3. right. exact Hout.
Qed.

(** X24.  A new image fades in on the second animation frame.  When the
    preload of the attempt in flight succeeds over an image that was on
    show, the new image is rendered without the [show] class; with no
    frame callback pending it is still without it after one animation
    frame; and after two animation frames it has it, whatever was
    pending. *)
Theorem new_image_shows_on_second_frame
    (w : world) (a : attempt) (imageUrl : json) :
  running w = Some a ->
  awaiting a = AwaitImage imageUrl ->
  truthy_json (closedCurrent a) = true ->
  truthy_json imageUrl = true ->
  let w1 := step toFixed1 w (ImageSettled true) in
  let w2 := step toFixed1 w1 AnimationFrame in
  let w3 := step toFixed1 w2 AnimationFrame in
  currentImg (render (ui w1)) = Some (imageUrl, "generatedImage current")
  /\ (frames w = [] ->
      currentImg (render (ui w2)) = Some (imageUrl, "generatedImage current"))
  /\ currentImg (render (ui w3)) = Some (imageUrl, "generatedImage current show").
Proof.
  intros Hrun Hstage Hclosed Hurl w1 w2 w3.
  assert (H1 : currentImageUrl (ui w1) = imageUrl
               /\ showCurrentImage (ui w1) = false
               /\ frames w1 = (frames w ++ [Outer])%list).
  { subst w1. unfold step, imageSettled. rewrite Hrun, Hstage.
    unfold preloaded, finally, requestFrames. rewrite Hclosed. repeat split. }
  destruct H1 as (Hcur & Hshow & Hframes).
  split; [| split].
  - unfold render, currentImg. rewrite Hcur, Hurl, Hshow. reflexivity.
  - intros Hnone. subst w2. unfold step, animationFrame.
    rewrite Hframes, Hnone. simpl.
    unfold render, currentImg. simpl. rewrite Hcur, Hurl, Hshow. reflexivity.
  - subst w3 w2. unfold step.
    destruct (animationFrame_images w1) as (_ & Hc1 & _).
    destruct (animationFrame_images (animationFrame w1)) as (_ & Hc2 & _).
    unfold render, currentImg. rewrite Hc2, Hc1, Hcur, Hurl.
    rewrite frames_run_twice; [reflexivity |].
    rewrite Hframes. destruct (frames w); discriminate.
Qed.


End ControllerFurther.

(** ** The further properties on concrete runs *)

Lemma request_carries_one_reference_witness :
  exists body,
    In (Fetch body) (log (handleGenerate tenths 1000 1000 padded_world))
    /\ field "prompt" body = Some (JStr "a cat")
    /\ field "apiKey" body = Some (JStr "test-key")
    /\ field "image" body = None
    /\ field "imageUrl" body = None.
Proof.
  destruct (request_carries_one_reference tenths padded_world 1000 1000)
    as (added & Hlog & _ & Hbuilt).
  assert (Hadded :
            added = [SetInterval 1%positive;
                     Fetch (JObj [("prompt", JStr "a cat"); ("apiKey", JStr "test-key");
                                  ("variant", JStr "9b")])]).
  { apply (app_inv_head (log padded_world)). rewrite <- Hlog.
    vm_compute. reflexivity. }
  exists (JObj [("prompt", JStr "a cat"); ("apiKey", JStr "test-key");
                ("variant", JStr "9b")]).
  split; [rewrite Hlog, Hadded; apply in_or_app; right; right; left; reflexivity |].
  destruct (Hbuilt (JObj [("prompt", JStr "a cat"); ("apiKey", JStr "test-key");
                          ("variant", JStr "9b")]))
    as (_ & _ & _ & _ & _ & _ & Hedit & _);
    [rewrite Hadded; right; left; reflexivity |].
  destruct Hedit as [Himage Hurl]; [vm_compute; reflexivity |].
  repeat split; assumption.
Defined.

Lemma built_request_reaches_provider_witness :
  snd (POST (Some (JObj [("prompt", JStr "a cat"); ("apiKey", JStr "test-key");
                         ("variant", JStr "9b")])) []) <> []
  /\ forall url key payload,
       In (Submit url key payload)
          (snd (POST (Some (JObj [("prompt", JStr "a cat"); ("apiKey", JStr "test-key");
                                  ("variant", JStr "9b")])) [])) ->
       key = JStr (apiKey (ui padded_world))
       /\ field "prompt" payload = Some (JStr (trim (prompt (ui padded_world))))
       /\ (modelVariant (ui padded_world) = "4b" -> url = BFL_API_4B)
       /\ (modelVariant (ui padded_world) <> "4b" -> url = BFL_API_9B).
Proof.
  apply (built_request_reaches_provider tenths padded_world 1000 1000
           [SetInterval 1%positive;
            Fetch (JObj [("prompt", JStr "a cat"); ("apiKey", JStr "test-key");
                         ("variant", JStr "9b")])]);
    [vm_compute; reflexivity | right; left; reflexivity].
Defined.

Lemma failure_keeps_images_witness :
  let w := run tenths (mount None)
             [ApiKeyChange "test-key"; PromptChange "a cat";
              KeyDown "Enter" 1000 1000] in
  let w' := step tenths w (FetchSettled (NetworkFailure "Failed to fetch") 1900) in
  (exists h, log w' = (log w ++ [ClearInterval h; ConsoleError;
                                 Alert (shown (Err "Failed to fetch"))])%list)
  /\ currentImageUrl (ui w') = currentImageUrl (ui w)
  /\ previousImageUrl (ui w') = previousImageUrl (ui w)
  /\ editMode (ui w') = editMode (ui w)
  /\ showLoading (ui w') = false
  /\ loadingComplete (ui w') = false
  /\ isGenerating (ui w') = false
  /\ running w' = None.
Proof.
  apply (failure_keeps_images tenths None
           [ApiKeyChange "test-key"; PromptChange "a cat";
            KeyDown "Enter" 1000 1000]
           (FetchSettled (NetworkFailure "Failed to fetch") 1900)
           (Err "Failed to fetch")).
  eexists. split; [vm_compute; reflexivity |].
  left. split; [reflexivity |]. do 2 eexists. split; reflexivity.
Defined.

Lemma relayed_error_is_shown_witness :
  let w := run tenths (mount None)
             [ApiKeyChange "test-key"; PromptChange "a cat";
              KeyDown "Enter" 1000 1000] in
  (exists h,
      log (step tenths w
             (FetchSettled (as_reply false 500 (JObj [("error", JStr "Server error")]))
                1900))
      = (log w ++ [ClearInterval h; ConsoleError; Alert (Text "Server error")])%list)
  /\ (exists h,
         log (step tenths w
                (FetchSettled
                   (as_reply false 422
                      (JObj [("error", JArr [JObj [("msg", JStr "bad")]; JNum 7])]))
                   1900))
         = (log w ++ [ClearInterval h; ConsoleError;
                      Alert (Text "[object Object],7")])%list)
  /\ (exists h,
         log (step tenths w
                (FetchSettled
                   (as_reply false 422 (JObj [("error", JObj [("toString", JNum 1)])]))
                   1900))
         = (log w ++ [ClearInterval h; ConsoleError; Alert PlatformText])%list).
Proof.
  split; [| split].
  - apply (relayed_error_is_shown tenths None
             [ApiKeyChange "test-key"; PromptChange "a cat";
              KeyDown "Enter" 1000 1000] 500 1900 (JStr "Server error"));
      [| reflexivity].
    eexists. split; vm_compute; reflexivity.
  - apply (relayed_error_is_shown tenths None
             [ApiKeyChange "test-key"; PromptChange "a cat";
              KeyDown "Enter" 1000 1000] 422 1900
             (JArr [JObj [("msg", JStr "bad")]; JNum 7]));
      [| reflexivity].
    eexists. split; vm_compute; reflexivity.
  - apply (relayed_error_is_shown tenths None
             [ApiKeyChange "test-key"; PromptChange "a cat";
              KeyDown "Enter" 1000 1000] 422 1900
             (JObj [("toString", JNum 1)]));
      [| reflexivity].
    eexists. split; vm_compute; reflexivity.
Defined.

Lemma placeholder_excludes_images_witness :
  let v := render (ui (run tenths (mount None)
                         [ApiKeyChange "test-key"; PromptChange "a cat";
                          KeyDown "Enter" 1000 1000])) in
  previousImg v = None
  /\ currentImg v = None
  /\ editModeToggleClass v = "editModeToggle disabled"
  /\ toggleSwitchClass v = "toggleSwitch disabled".
Proof.
  apply (placeholder_excludes_images tenths None
           [ApiKeyChange "test-key"; PromptChange "a cat";
            KeyDown "Enter" 1000 1000]).
  vm_compute. reflexivity.
Defined.


Lemma fileToBase64_gives_payload_witness :
  fileToBase64 ("data:image/png;base64" ++ "," ++ "iVBORw0KGgo=")
  = Some (JStr "iVBORw0KGgo=").
Proof.
  apply (fileToBase64_gives_payload "data:image/png;base64" "iVBORw0KGgo=");
    reflexivity.
Defined.

Lemma dropped_image_is_sent_inline_witness :
  let w' := run tenths ready_world
              [Drop (Some png_file); FileRead; KeyDown "Enter" 1000 1000] in
  exists body,
    log w' = (log ready_world
              ++ [RequestFrame; SetInterval (fresh ready_world); Fetch body])%list
    /\ field "image" body = fileToBase64 "data:image/png;base64,iVBORw0KGgo="
    /\ field "imageUrl" body = None
    /\ currentImageUrl (ui w') = JStr (object_url png_file)
    /\ editMode (ui w') = true.
Proof.
  apply (dropped_image_is_sent_inline tenths ready_world png_file
           "data:image/png;base64,iVBORw0KGgo=" 1000 1000);
    solve [vm_compute; reflexivity | vm_compute; discriminate].
Defined.

Lemma result_is_next_reference_witness :
  let w' := run tenths padded_world
              [KeyDown "Enter" 1000 1000;
               FetchSettled (url_reply "https://example.com/first.png") 2500;
               ImageSettled true; EditModeClick; KeyDown "Enter" 4000 4000] in
  exists earlier body,
    log w' = (earlier ++ [Fetch body])%list
    /\ field "imageUrl" body = Some (JStr "https://example.com/first.png")
    /\ field "image" body = None
    /\ field "prompt" body = Some (JStr "a cat").
Proof.
  destruct (result_is_next_reference tenths padded_world
              (url_reply "https://example.com/first.png")
              "https://example.com/first.png" 1000 1000 2500 4000 4000)
    as (earlier & body & Hlog & Hurl & Himage & Hprompt);
    try solve [vm_compute; reflexivity | vm_compute; discriminate].
  exists earlier, body. repeat split; assumption.
Defined.

Lemma new_image_shows_on_second_frame_witness :
  let w := run tenths second_world
             [KeyDown "Enter" 5000 5000;
              FetchSettled (url_reply "https://example.com/second.png") 6200] in
  let w1 := step tenths w (ImageSettled true) in
  let w2 := step tenths w1 AnimationFrame in
  let w3 := step tenths w2 AnimationFrame in
  currentImg (render (ui w1))
  = Some (JStr "https://example.com/second.png", "generatedImage current")
  /\ currentImg (render (ui w2))
     = Some (JStr "https://example.com/second.png", "generatedImage current")
  /\ currentImg (render (ui w3))
     = Some (JStr "https://example.com/second.png", "generatedImage current show").
Proof.
  destruct (new_image_shows_on_second_frame tenths
              (run tenths second_world
                 [KeyDown "Enter" 5000 5000;
                  FetchSettled (url_reply "https://example.com/second.png") 6200])
              {| startTime := 5000;
                 closedCurrent := JStr "https://example.com/first.png";
                 awaiting := AwaitImage (JStr "https://example.com/second.png") |}
              (JStr "https://example.com/second.png"))
    as (H1 & H2 & H3); try (vm_compute; reflexivity).
  split; [exact H1 | split; [apply H2; vm_compute; reflexivity | exact H3]].
Defined.

